(** * Order validation and normalisation library

    A shallow embedding of the helper functions of
    [Pytest Framework/src/elt_functions.py], [data_transformations.py],
    [data_validation_functions.py] and [data_quality.py], together with
    the fragment of the Python run time they rest on (numbers, [round],
    [str] methods, truthiness, [isinstance]).

    Python values are modelled as the interpreter has them: an [int] is an
    unbounded integer ([Z]), a [float] is an IEEE 754 binary64 number
    (the primitive [float]), a [str] is a sequence of Unicode code points
    ([list N]), [None] is the missing case of an [option], a raised
    exception is the [Raise] case of [result]. *)

From Stdlib Require Import ZArith NArith Floats String Ascii List Bool Lia.
From stdpp Require Import gmap.
Import ListNotations.

Local Open Scope Z_scope.

(** ** Exceptions *)

Module Py.

Inductive exn : Type :=
| ValueError (msg : string)
| OverflowError (msg : string).

Inductive result (A : Type) : Type :=
| Ret (a : A)
| Raise (e : exn).

Arguments Ret {A} a.
Arguments Raise {A} e.

Definition bind {A B : Type} (r : result A) (k : A -> result B) : result B :=
  match r with
  | Ret a => k a
  | Raise e => Raise e
  end.



(** ** Numbers: [int] and [float] *)

Inductive number : Type :=
| PyInt (z : Z)
| PyFloat (f : float).

(** [float(z)] for an [int] operand of mixed arithmetic: the nearest
    binary64 value, ties to even; an [int] beyond the range of [float]
    raises [OverflowError]. *)
Definition float_of_int (z : Z) : result float :=
  match binary_normalize prec emax z 0 false with
  | S754_infinity _ => Raise (OverflowError "int too large to convert to float")
  | sf => Ret (SF2Prim sf)
  end.

(** [x * y]: exact on two [int]s, binary64 on two [float]s; a mixed product
    converts the [int] operand first. *)
Definition mul (x y : number) : result number :=
  match x, y with
  | PyInt a, PyInt b => Ret (PyInt (a * b))
  | PyFloat a, PyFloat b => Ret (PyFloat (a * b)%float)
  | PyInt a, PyFloat b =>
      bind (float_of_int a) (fun fa => Ret (PyFloat (fa * b)%float))
  | PyFloat a, PyInt b =>
      bind (float_of_int b) (fun fb => Ret (PyFloat (a * fb)%float))
  end.

(** The signed integer [(-1)^s * m]. *)
Definition signed (s : bool) (m : positive) : Z :=
  if s then Z.neg m else Z.pos m.

(** Comparison of an [int] with a [float] is exact (no conversion of the
    [int]); a NaN is unordered. *)
Definition cmp_int_float (z : Z) (f : float) : option comparison :=
  match Prim2SF f with
  | S754_nan => None
  | S754_infinity s => Some (if s then Gt else Lt)
  | S754_zero _ => Some (z ?= 0)
  | S754_finite s m e =>
      if 0 <=? e then Some (z ?= signed s m * 2 ^ e)
      else Some (z * 2 ^ (- e) ?= signed s m)
  end.

Definition cmp_float_float (a b : float) : option comparison :=
  match PrimFloat.compare a b with
  | FEq => Some Eq
  | FLt => Some Lt
  | FGt => Some Gt
  | FNotComparable => None
  end.

Definition compare (x y : number) : option comparison :=
  match x, y with
  | PyInt a, PyInt b => Some (a ?= b)
  | PyFloat a, PyFloat b => cmp_float_float a b
  | PyInt a, PyFloat b => cmp_int_float a b
  | PyFloat a, PyInt b => option_map CompOpp (cmp_int_float b a)
  end.

(** [x < y], [x <= y], [x > y], [x >= y]. *)
Definition lt (x y : number) : bool :=
  match compare x y with Some Lt => true | _ => false end.
Definition le (x y : number) : bool :=
  match compare x y with Some Lt | Some Eq => true | _ => false end.
Definition gt (x y : number) : bool :=
  match compare x y with Some Gt => true | _ => false end.
Definition ge (x y : number) : bool :=
  match compare x y with Some Gt | Some Eq => true | _ => false end.

(** The binary64 value nearest to the fraction [(-1)^s * n / d] (ties to
    even): what reading a decimal numeral gives. *)
Definition nearest_float (s : bool) (n d : positive) : float :=
  SF2Prim (SFdiv prec emax (S754_finite s n 0) (S754_finite false d 0)).

(** [round(x, 2)] on a [float]: the exact binary value is rounded to two
    decimals, ties to even, and the decimal is read back as the nearest
    binary64 value; infinities and NaN are returned unchanged, and a zero
    result keeps the sign of [x]. *)
Definition float_round2 (x : float) : float :=
  match Prim2SF x with
  | S754_finite s m e =>
      if 0 <=? e then x
      else
        let num := Z.pos m * 100 in
        let den := 2 ^ (- e) in
        let q := num / den in
        let r := num mod den in
        let n := if 2 * r <? den then q
                 else if den <? 2 * r then q + 1
                 else if Z.even q then q else q + 1 in
        match n with
        | Z.pos p => nearest_float s p 100
        | _ => if s then PrimFloat.neg_zero else PrimFloat.zero
        end
  | _ => x
  end.

(** [round(x, 2)]: an [int] is returned as it is. *)
Definition round2 (x : number) : number :=
  match x with
  | PyInt z => PyInt z
  | PyFloat f => PyFloat (float_round2 f)
  end.

(** ** Strings: [str] as a sequence of code points *)

Abbreviation pystr := (list N).

(** A string literal of the source (ASCII) as a [str]. *)
Definition lit (s : string) : pystr :=
  map N_of_ascii (list_ascii_of_string s).

Definition in_ranges (rs : list (N * N)) (c : N) : bool :=
  existsb (fun r => (fst r <=? c)%N && (c <=? snd r)%N) rs.

(** The characters [str.isspace] accepts and [str.strip()] removes:
    Unicode White_Space together with the separators U+001C..U+001F. *)
Definition space_ranges : list (N * N) :=
  [(0x9, 0xD); (0x1C, 0x20); (0x85, 0x85); (0xA0, 0xA0); (0x1680, 0x1680);
   (0x2000, 0x200A); (0x2028, 0x2029); (0x202F, 0x202F); (0x205F, 0x205F);
   (0x3000, 0x3000)]%N.

Definition isspace (c : N) : bool := in_ranges space_ranges c.

(** The code points with Numeric_Type=Digit or Numeric_Type=Decimal
    (Unicode 14.0), as inclusive ranges: the characters [str.isdigit]
    accepts. *)
Definition digit_ranges : list (N * N) :=
  [(0x30, 0x39); (0xB2, 0xB3); (0xB9, 0xB9); (0x660, 0x669);
   (0x6F0, 0x6F9); (0x7C0, 0x7C9); (0x966, 0x96F); (0x9E6, 0x9EF);
   (0xA66, 0xA6F); (0xAE6, 0xAEF); (0xB66, 0xB6F); (0xBE6, 0xBEF);
   (0xC66, 0xC6F); (0xCE6, 0xCEF); (0xD66, 0xD6F); (0xDE6, 0xDEF);
   (0xE50, 0xE59); (0xED0, 0xED9); (0xF20, 0xF29); (0x1040, 0x1049);
   (0x1090, 0x1099); (0x1369, 0x1371); (0x17E0, 0x17E9); (0x1810, 0x1819);
   (0x1946, 0x194F); (0x19D0, 0x19DA); (0x1A80, 0x1A89); (0x1A90, 0x1A99);
   (0x1B50, 0x1B59); (0x1BB0, 0x1BB9); (0x1C40, 0x1C49); (0x1C50, 0x1C59);
   (0x2070, 0x2070); (0x2074, 0x2079); (0x2080, 0x2089); (0x2460, 0x2468);
   (0x2474, 0x247C); (0x2488, 0x2490); (0x24EA, 0x24EA); (0x24F5, 0x24FD);
   (0x24FF, 0x24FF); (0x2776, 0x277E); (0x2780, 0x2788); (0x278A, 0x2792);
   (0xA620, 0xA629); (0xA8D0, 0xA8D9); (0xA900, 0xA909); (0xA9D0, 0xA9D9);
   (0xA9F0, 0xA9F9); (0xAA50, 0xAA59); (0xABF0, 0xABF9); (0xFF10, 0xFF19);
   (0x104A0, 0x104A9); (0x10A40, 0x10A43); (0x10D30, 0x10D39);
   (0x10E60, 0x10E68); (0x11052, 0x1105A); (0x11066, 0x1106F);
   (0x110F0, 0x110F9); (0x11136, 0x1113F); (0x111D0, 0x111D9);
   (0x112F0, 0x112F9); (0x11450, 0x11459); (0x114D0, 0x114D9);
   (0x11650, 0x11659); (0x116C0, 0x116C9); (0x11730, 0x11739);
   (0x118E0, 0x118E9); (0x11950, 0x11959); (0x11C50, 0x11C59);
   (0x11D50, 0x11D59); (0x11DA0, 0x11DA9); (0x16A60, 0x16A69);
   (0x16AC0, 0x16AC9); (0x16B50, 0x16B59); (0x1D7CE, 0x1D7FF);
   (0x1E140, 0x1E149); (0x1E2F0, 0x1E2F9); (0x1E950, 0x1E959);
   (0x1F100, 0x1F10A); (0x1FBF0, 0x1FBF9)]%N.

(** The code points with Numeric_Type=Decimal (general category Nd), as
    inclusive ranges: the characters [str.isdecimal] accepts, ten per
    script. *)
Definition decimal_ranges : list (N * N) :=
  [(0x30, 0x39); (0x660, 0x669); (0x6F0, 0x6F9); (0x7C0, 0x7C9);
   (0x966, 0x96F); (0x9E6, 0x9EF); (0xA66, 0xA6F); (0xAE6, 0xAEF);
   (0xB66, 0xB6F); (0xBE6, 0xBEF); (0xC66, 0xC6F); (0xCE6, 0xCEF);
   (0xD66, 0xD6F); (0xDE6, 0xDEF); (0xE50, 0xE59); (0xED0, 0xED9);
   (0xF20, 0xF29); (0x1040, 0x1049); (0x1090, 0x1099); (0x17E0, 0x17E9);
   (0x1810, 0x1819); (0x1946, 0x194F); (0x19D0, 0x19D9); (0x1A80, 0x1A89);
   (0x1A90, 0x1A99); (0x1B50, 0x1B59); (0x1BB0, 0x1BB9); (0x1C40, 0x1C49);
   (0x1C50, 0x1C59); (0xA620, 0xA629); (0xA8D0, 0xA8D9); (0xA900, 0xA909);
   (0xA9D0, 0xA9D9); (0xA9F0, 0xA9F9); (0xAA50, 0xAA59); (0xABF0, 0xABF9);
   (0xFF10, 0xFF19); (0x104A0, 0x104A9); (0x10D30, 0x10D39);
   (0x11066, 0x1106F); (0x110F0, 0x110F9); (0x11136, 0x1113F);
   (0x111D0, 0x111D9); (0x112F0, 0x112F9); (0x11450, 0x11459);
   (0x114D0, 0x114D9); (0x11650, 0x11659); (0x116C0, 0x116C9);
   (0x11730, 0x11739); (0x118E0, 0x118E9); (0x11950, 0x11959);
   (0x11C50, 0x11C59); (0x11D50, 0x11D59); (0x11DA0, 0x11DA9);
   (0x16A60, 0x16A69); (0x16AC0, 0x16AC9); (0x16B50, 0x16B59);
   (0x1D7CE, 0x1D7FF); (0x1E140, 0x1E149); (0x1E2F0, 0x1E2F9);
   (0x1E950, 0x1E959); (0x1FBF0, 0x1FBF9)]%N.

Definition isdigit (c : N) : bool := in_ranges digit_ranges c.
Definition isdecimal (c : N) : bool := in_ranges decimal_ranges c.

(** [str.isascii()]. *)
Definition isascii (s : pystr) : bool := forallb (fun c => (c <? 128)%N) s.

(** [s.strip()]: leading, then trailing white space removed. *)
Fixpoint lstrip (s : pystr) : pystr :=
  match s with
  | [] => []
  | c :: s' => if isspace c then lstrip s' else s
  end.

Fixpoint rstrip (s : pystr) : pystr :=
  match s with
  | [] => []
  | c :: s' =>
      match rstrip s' with
      | [] => if isspace c then [] else [c]
      | r => c :: r
      end
  end.

Definition strip (s : pystr) : pystr := rstrip (lstrip s).

(** Case mapping. The rows below are those of the Unicode character
    database for Basic Latin (U+0000..U+007F), for U+0130 (LATIN CAPITAL
    LETTER I WITH DOT ABOVE, whose lower case is the two code points
    U+0069 U+0307) and for U+0307 (COMBINING DOT ABOVE, not cased). Any
    other code point is given the identity row, so [lower] and [title]
    are those of Python on the strings over the code points listed; the
    results below that depend on these rows are stated for such strings. *)
Definition is_upper_ascii (c : N) : bool := (0x41 <=? c)%N && (c <=? 0x5A)%N.
Definition is_lower_ascii (c : N) : bool := (0x61 <=? c)%N && (c <=? 0x7A)%N.

Definition is_cased (c : N) : bool :=
  is_upper_ascii c || is_lower_ascii c || (c =? 0x130)%N.

Definition to_lower_full (c : N) : list N :=
  if is_upper_ascii c then [(c + 32)%N]
  else if (c =? 0x130)%N then [0x69; 0x307]%N
  else [c].

Definition to_title_full (c : N) : list N :=
  if is_lower_ascii c then [(c - 32)%N] else [c].

(** [s.lower()]. *)
Definition lower (s : pystr) : pystr := flat_map to_lower_full s.

(** [s.title()]: a character that follows a cased character is lowered,
    any other is title-cased; whether the next one follows a cased
    character is read off the character of the input. *)
Fixpoint do_title (previous_is_cased : bool) (s : pystr) : pystr :=
  match s with
  | [] => []
  | c :: s' =>
      (if previous_is_cased then to_lower_full c else to_title_full c)
        ++ do_title (is_cased c) s'
  end.

Definition title (s : pystr) : pystr := do_title false s.

(** [s.startswith(prefix)]. *)
Fixpoint startswith (s prefix : pystr) {struct prefix} : bool :=
  match prefix, s with
  | [], _ => true
  | _ :: _, [] => false
  | p :: prefix', c :: s' => (p =? c)%N && startswith s' prefix'
  end.

(** [sub in s]: [sub] occurs in [s] as a substring. *)
Fixpoint contains (s sub : pystr) : bool :=
  startswith s sub
  || match s with
     | [] => false
     | _ :: s' => contains s' sub
     end.

(** [''.join(filter(pred, s))]. *)
Definition join_filter (pred : N -> bool) (s : pystr) : pystr :=
  List.filter pred s.

(** ** Values held by a record, truthiness and [isinstance] *)

#[local] Set Warnings "-register-all".

Inductive pyval : Type :=
| VNone
| VBool (b : bool)
| VInt (z : Z)
| VFloat (f : float)
| VStr (s : pystr)
| VList (l : list pyval).

(** [bool(v)]: [None], [False], zero, the empty string and the empty list
    are falsy. *)
Definition truthy (v : pyval) : bool :=
  match v with
  | VNone => false
  | VBool b => b
  | VInt z => negb (z =? 0)
  | VFloat f => negb (f =? 0)%float
  | VStr s => match s with [] => false | _ => true end
  | VList l => match l with [] => false | _ => true end
  end.

Inductive pytype : Type :=
| TNoneType | TBool | TInt | TFloat | TStr | TList | TObject.

Definition type_of (v : pyval) : pytype :=
  match v with
  | VNone => TNoneType
  | VBool _ => TBool
  | VInt _ => TInt
  | VFloat _ => TFloat
  | VStr _ => TStr
  | VList _ => TList
  end.

(** [t.__name__]. *)
Definition type_name (t : pytype) : pystr :=
  match t with
  | TNoneType => lit "NoneType"
  | TBool => lit "bool"
  | TInt => lit "int"
  | TFloat => lit "float"
  | TStr => lit "str"
  | TList => lit "list"
  | TObject => lit "object"
  end.

Definition pytype_eqb (t u : pytype) : bool :=
  match t, u with
  | TNoneType, TNoneType | TBool, TBool | TInt, TInt | TFloat, TFloat
  | TStr, TStr | TList, TList | TObject, TObject => true
  | _, _ => false
  end.

(** [issubclass(t, u)]: [bool] is a subclass of [int], every class one of
    [object]. *)
Definition issubclass (t u : pytype) : bool :=
  match t, u with
  | _, TObject => true
  | TBool, TInt => true
  | _, _ => pytype_eqb t u
  end.

Definition isinstance (v : pyval) (t : pytype) : bool :=
  issubclass (type_of v) t.

(** ** Messages

    A message is kept as the f-string that builds it: its literal parts
    and, between them, the numbers it formats. *)
Inductive piece : Type :=
| Text (s : string)
| Value (n : number).

Abbreviation message := (list piece).

(** ** Sums and splitting *)

(** [x + y], with the conversions of [x * y]. *)
Definition add (x y : number) : result number :=
  match x, y with
  | PyInt a, PyInt b => Ret (PyInt (a + b))
  | PyFloat a, PyFloat b => Ret (PyFloat (a + b)%float)
  | PyInt a, PyFloat b =>
      bind (float_of_int a) (fun fa => Ret (PyFloat (fa + b)%float))
  | PyFloat a, PyInt b =>
      bind (float_of_int b) (fun fb => Ret (PyFloat (a + fb)%float))
  end.

(** [sum(l)]: the items are added one after the other to the [int] 0
    (on [float] items this is the plain accumulation of CPython up to
    3.11). *)
Definition sum (l : list number) : result number :=
  fold_left (fun acc x => bind acc (fun a => add a x)) l (Ret (PyInt 0)).

(** [s.split(sep)] for a separator that is not empty: [s] is read from
    the left, each occurrence of [sep] closes a piece and is passed
    over; [cur] holds the piece being read, last character first. *)
Fixpoint split_from (sep : pystr) (skip : nat) (cur s : pystr) : list pystr :=
  match s with
  | [] => [rev cur]
  | c :: s' =>
      match skip with
      | S k => split_from sep k cur s'
      | O =>
          if startswith s sep
          then rev cur :: split_from sep (length sep - 1) [] s'
          else split_from sep 0 (c :: cur) s'
      end
  end.

Definition split (s sep : pystr) : list pystr := split_from sep 0 [] s.

(** Equality of two strings. *)
Fixpoint str_eqb (s t : pystr) : bool :=
  match s, t with
  | [], [] => true
  | c :: s', d :: t' => (c =? d)%N && str_eqb s' t'
  | _, _ => false
  end.

(** [x in l] for a list of strings. *)
Definition in_list (x : pystr) (l : list pystr) : bool :=
  existsb (str_eqb x) l.

End Py.

Import Py.

(** * [elt_functions.py] *)

Definition check_order_id (order_id : option pystr) : bool * message :=
  match order_id with
  | None | Some [] => (false, [Text "Order ID is empty"])
  | Some s =>
      if negb (startswith s (lit "ORD-"))
      then (false, [Text "Order ID must start with ORD-"])
      else (true, [Text "Valid"])
  end.

Definition check_email (email : option pystr) : bool * message :=
  match email with
  | None | Some [] => (false, [Text "Email is empty"])
  | Some s =>
      if negb (contains s (lit "@")) || negb (contains s (lit "."))
      then (false, [Text "Email must have @ and ."])
      else (true, [Text "Valid"])
  end.

Definition check_quantity (quantity : option number) (max_allowed : number)
  : bool * message :=
  match quantity with
  | None => (false, [Text "Quantity is missing"])
  | Some q =>
      if Py.le q (PyInt 0) then (false, [Text "Quantity must be positive"])
      else if Py.gt q max_allowed
      then (false, [Text "Quantity too high (max: "; Value max_allowed; Text ")"])
      else (true, [Text "Valid"])
  end.

Definition check_price (price : option number) (min_price max_price : number)
  : bool * message :=
  match price with
  | None => (false, [Text "Price is missing"])
  | Some p =>
      if Py.lt p min_price
      then (false, [Text "Price too low (min: $"; Value min_price; Text ")"])
      else if Py.gt p max_price
      then (false, [Text "Price too high (max: $"; Value max_price; Text ")"])
      else (true, [Text "Valid"])
  end.

Definition check_age (age : option number) (min_age max_age : number)
  : bool * message :=
  match age with
  | None => (false, [Text "Age is missing"])
  | Some a =>
      if Py.lt a min_age
      then (false, [Text "Customer too young (min: "; Value min_age; Text ")"])
      else if Py.gt a max_age
      then (false, [Text "Age unrealistic (max: "; Value max_age; Text ")"])
      else (true, [Text "Valid"])
  end.

Definition clean_name (name : option pystr) : pystr :=
  match name with
  | None | Some [] => []
  | Some s => title (strip s)
  end.

Definition clean_email (email : option pystr) : pystr :=
  match email with
  | None | Some [] => []
  | Some s => lower (strip s)
  end.

Definition clean_product_name (product_name : option pystr) : pystr :=
  match product_name with
  | None | Some [] => []
  | Some s => title (strip s)
  end.

Definition calculate_total (quantity price : option number) : result number :=
  match quantity, price with
  | Some q, Some p => bind (mul q p) (fun t => Ret (round2 t))
  | _, _ => Ret (PyFloat 0)
  end.

(** The literal [0.10]. *)
Definition tax_rate : float := nearest_float false 10 100.

Definition calculate_tax (total_amount : number) : result number :=
  bind (mul total_amount (PyFloat tax_rate)) (fun t => Ret (round2 t)).

Definition get_order_category (total_amount : number) : pystr :=
  if Py.ge total_amount (PyInt 1000) then lit "HIGH"
  else if Py.ge total_amount (PyInt 500) then lit "MEDIUM"
  else if Py.gt total_amount (PyInt 0) then lit "LOW"
  else lit "INVALID".

(** * [data_transformations.py] *)

Definition standardize_name (name : option pystr) : pystr :=
  match name with
  | None | Some [] => []
  | Some s => title (strip s)
  end.

Definition calculate_total_sales (sales_list : option (list number))
  : result number :=
  match sales_list with
  | None | Some [] => Ret (PyInt 0)
  | Some l => sum l
  end.


(** * [data_validation_functions.py] *)

Definition validate_email (email : pystr) : bool :=
  contains email (lit "@") && contains email (lit ".").

Definition clean_phone_number (phone : pystr) : pystr :=
  join_filter isdigit phone.

Definition validate_age (age : number) : bool :=
  Py.le (PyInt 0) age && Py.le age (PyInt 100).

(** * [data_quality.py] *)

(** [field not in data_dict or not data_dict[field]]. *)
Definition field_missing (data_dict : gmap pystr pyval) (field : pystr) : bool :=
  match data_dict !! field with
  | None => true
  | Some v => negb (truthy v)
  end.

Definition check_data_completeness
    (data_dict : gmap pystr pyval) (required_fields : list pystr)
  : bool * list pystr :=
  let missing_fields :=
    fold_left
      (fun missing_fields field =>
         if field_missing data_dict field
         then missing_fields ++ [field]
         else missing_fields)
      required_fields [] in
  (Nat.eqb (length missing_fields) 0, missing_fields).

(** The entry appended for a field whose value has not the expected type. *)
Definition type_error (field : pystr) (expected_type : pytype) (v : pyval)
  : pystr :=
  field ++ lit ": expected " ++ type_name expected_type
        ++ lit ", got " ++ type_name (type_of v).

(** [field_types] is a dict read by [.items()]: its entries in insertion
    order. *)
Definition validate_data_types
    (data_dict : gmap pystr pyval) (field_types : list (pystr * pytype))
  : bool * list pystr :=
  let type_errors :=
    fold_left
      (fun type_errors '(field, expected_type) =>
         match data_dict !! field with
         | Some v =>
             if negb (isinstance v expected_type)
             then type_errors ++ [type_error field expected_type v]
             else type_errors
         | None => type_errors
         end)
      field_types [] in
  (Nat.eqb (length type_errors) 0, type_errors).

(** * [Pytest_Framework.py]

    The notebook defines [validate_email] twice: first as in
    [data_validation_functions.py], then with the valid domains com, org
    and net. The second definition is the one below. *)

Module Notebook.

Definition validate_email (email : pystr) : bool :=
  let one_check :=
    match split email (lit "@") with
    | [l; r] =>
        match l, r with
        | _ :: _, _ :: _ => true
        | _, _ => false
        end
    | _ => false
    end in
  let second_check :=
    match split email (lit ".") with
    | [l; r] =>
        match l, r with
        | _ :: _, _ :: _ =>
            let domain := r in
            in_list domain [lit "com"; lit "org"; lit "net"]
        | _, _ => false
        end
    | _ => false
    end in
  if one_check && second_check then true else false.

End Notebook.

(** * Vocabulary of the statements *)

(** The float literals [999.99] and [1999.98]. *)
Definition float_999_99 : float := nearest_float false 99999 100.
Definition float_1999_98 : float := nearest_float false 199998 100.

(** The digits 0 to 9. *)
Definition is_ascii_digit (c : N) : bool := (0x30 <=? c)%N && (c <=? 0x39)%N.

(** The shape the docstring of [check_order_id] names, [ORD-YYYY-NNN]:
    the prefix, four decimal digits, a dash, three decimal digits. *)
Definition documented_order_id_shape (s : pystr) : bool :=
  match s with
  | [o; r; d; h1; y1; y2; y3; y4; h2; n1; n2; n3] =>
      startswith s (lit "ORD-")
      && forallb is_ascii_digit [y1; y2; y3; y4]
      && (h2 =? 0x2D)%N
      && forallb is_ascii_digit [n1; n2; n3]
  | _ => false
  end.







(** The record of the example: name "John", an empty email, age 30. *)
Definition example_record : gmap pystr pyval :=
  <[lit "name" := VStr (lit "John")]>
    (<[lit "email" := VStr []]> (<[lit "age" := VInt 30]> ∅)).

(** What one entry of [field_types] adds to the errors: nothing for a
    field absent from the record or holding a value of the expected
    type, one string otherwise. *)
Definition errors_of (data_dict : gmap pystr pyval)
    (entry : pystr * pytype) : list pystr :=
  match data_dict !! fst entry with
  | Some v =>
      if negb (isinstance v (snd entry))
      then [type_error (fst entry) (snd entry) v]
      else []
  | None => []
  end.


(** The step of [title] (and, with [previous_is_cased] true, of [lower])
    on one character. *)
Definition case_step (previous_is_cased : bool) (c : N) : list N :=
  if previous_is_cased then to_lower_full c else to_title_full c.

(** What the proofs below use of the row of a code point: both mappings
    give one ASCII character, which is white space or cased as the
    original is and which the same mapping leaves alone; white space is
    not cased. *)
Definition case_row_ok (c : N) : bool :=
  forallb
    (fun b =>
       match case_step b c with
       | [x] =>
           (x <? 128)%N
           && Bool.eqb (isspace x) (isspace c)
           && Bool.eqb (is_cased x) (is_cased c)
           && match case_step b x with
              | [y] => (y =? x)%N
              | _ => false
              end
       | _ => false
       end)
    [true; false]
  && negb (isspace c && is_cased c).


(** The float literals [299.99] and [-299.99]. *)
Definition float_299_99 : float := nearest_float false 29999 100.
Definition float_neg_299_99 : float := nearest_float true 29999 100.

(** The shape [str.istitle] tests, on ASCII letters: a capital follows
    only a character that is not cased, a small letter only a cased
    one. *)
Fixpoint titlecased (previous_is_cased : bool) (s : pystr) : bool :=
  match s with
  | [] => true
  | c :: s' =>
      (if is_upper_ascii c then negb previous_is_cased
       else if is_lower_ascii c then previous_is_cased
       else true)
      && titlecased (is_cased c) s'
  end.

(** More of the row of a code point, for the results on the shape of
    cleaned strings: what a mapping gives has the case that mapping asks
    for, and is an at sign or a full stop only if the original is; the
    lower case of the character is mapped as the character is, and is
    cased and white space as it is. *)
Definition case_row_shape_ok (c : N) : bool :=
  forallb
    (fun b =>
       match case_step b c with
       | [x] =>
           (if is_upper_ascii x then negb b
            else if is_lower_ascii x then b else true)
           && Bool.eqb (x =? 0x40)%N (c =? 0x40)%N
           && Bool.eqb (x =? 0x2E)%N (c =? 0x2E)%N
           && match to_lower_full c with
              | [l] =>
                  (l <? 128)%N
                  && Bool.eqb (is_cased l) (is_cased c)
                  && match case_step b l with
                     | [y] => (y =? x)%N
                     | _ => false
                     end
              | _ => false
              end
       | _ => false
       end)
    [true; false].

(** The sum of a list of integers. *)
Definition Zsum (l : list Z) : Z := fold_right Z.add 0 l.

(** * Properties of the run-time fragment *)


(** ** Literals *)

(** The numerals [0.10], [999.99] and [1999.98] denote these binary64
    values. *)
Example float_literals :
  tax_rate = 0x1.999999999999ap-4%float
  /\ float_999_99 = 0x1.f3feb851eb852p+9%float
  /\ float_1999_98 = 0x1.f3feb851eb852p+10%float.
Proof. repeat apply conj; vm_compute; reflexivity. Qed.

(** [round] on exact ties and near misses: [round(0.125, 2)] is [0.12],
    [round(0.375, 2)] is [0.38], and [round(2.675, 2)] is [2.67], the
    float [2.675] lying below the decimal. *)
Example float_round2_ties :
  float_round2 0.125 = nearest_float false 12 100
  /\ float_round2 0.375 = nearest_float false 38 100
  /\ float_round2 (nearest_float false 2675 1000) = nearest_float false 267 100
  /\ float_round2 (nearest_float true 1 1000) = PrimFloat.neg_zero.
Proof. repeat apply conj; vm_compute; reflexivity. Qed.

(** ** Ordering of numbers *)

Lemma pow2_pos (e : Z) : 0 <= e -> 0 < 2 ^ e.
Proof. intros He. apply Z.pow_pos_nonneg; lia. Qed.

(** An [int] is ordered against every [float] but NaN, whatever the [int]. *)
Lemma cmp_int_float_defined (a b : Z) (f : float) (c : comparison) :
  cmp_int_float a f = Some c -> exists c', cmp_int_float b f = Some c'.
Proof.
  unfold cmp_int_float. destruct (Prim2SF f) as [s|s| |s m e]; try discriminate;
    intros _; eauto.
  destruct (0 <=? e); eauto.
Qed.

(** If the [float] is not above [a], it is below every larger [b]. *)
Lemma cmp_int_float_mono (a b : Z) (f : float) (c : comparison) :
  a < b -> cmp_int_float a f = Some c -> c <> Lt ->
  cmp_int_float b f = Some Gt.
Proof.
  unfold cmp_int_float. intros Hab.
  destruct (Prim2SF f) as [s|s| |s m e]; try discriminate.
  - intros [= <-] Hc. f_equal. apply Z.compare_gt_iff.
    destruct (Z.compare_spec a 0); try lia. congruence.
  - destruct s; intros [= <-] Hc; congruence.
  - destruct (Z.leb_spec 0 e) as [He|He]; intros [= <-] Hc; f_equal;
      apply Z.compare_gt_iff.
    + destruct (Z.compare_spec a (signed s m * 2 ^ e)); try lia. congruence.
    + assert (0 < 2 ^ (- e)) by (apply pow2_pos; lia).
      destruct (Z.compare_spec (a * 2 ^ (- e)) (signed s m)); try nia. congruence.
Qed.

Lemma compare_int_defined (t : number) (a b : Z) (c : comparison) :
  Py.compare t (PyInt a) = Some c -> exists c', Py.compare t (PyInt b) = Some c'.
Proof.
  destruct t as [z|f]; simpl; eauto.
  destruct (cmp_int_float a f) as [c0|] eqn:E; try discriminate. intros _.
  destruct (cmp_int_float_defined a b f c0 E) as [c' ->]. simpl. eauto.
Qed.

(** [t <= a] and [a < b] give [t < b], for [int] bounds [a] and [b]. *)
Lemma le_lt_int (t : number) (a b : Z) :
  a < b -> Py.le t (PyInt a) = true -> Py.lt t (PyInt b) = true.
Proof.
  intros Hab. unfold Py.le, Py.lt. destruct t as [z|f]; simpl.
  - destruct (Z.compare_spec z a); try discriminate; intros _;
      destruct (Z.compare_spec z b); try lia; reflexivity.
  - destruct (cmp_int_float a f) as [c|] eqn:E; simpl; try discriminate.
    intros Hc. rewrite (cmp_int_float_mono a b f c Hab E).
    + reflexivity.
    + destruct c; simpl in Hc; congruence.
Qed.

Lemma lt_le (x y : number) : Py.lt x y = true -> Py.le x y = true.
Proof. unfold Py.lt, Py.le. destruct (Py.compare x y) as [[]|]; congruence. Qed.

Lemma lt_lt_int (t : number) (a b : Z) :
  a < b -> Py.lt t (PyInt a) = true -> Py.lt t (PyInt b) = true.
Proof. intros Hab H. apply (le_lt_int t a b Hab), lt_le, H. Qed.

(** The four orderings read off one three-way comparison. *)
Lemma lt_ge_false (x y : number) : Py.lt x y = true -> Py.ge x y = false.
Proof. unfold Py.lt, Py.ge. destruct (Py.compare x y) as [[]|]; congruence. Qed.

Lemma le_gt_false (x y : number) : Py.le x y = true -> Py.gt x y = false.
Proof. unfold Py.le, Py.gt. destruct (Py.compare x y) as [[]|]; congruence. Qed.


(** On two [int]s the orderings are those of [Z]. *)
Lemma ge_int (a b : Z) : Py.ge (PyInt a) (PyInt b) = true <-> b <= a.
Proof.
  unfold Py.ge. simpl. destruct (Z.compare_spec a b); split; intros; try lia;
    try reflexivity; discriminate.
Qed.

Lemma gt_int (a b : Z) : Py.gt (PyInt a) (PyInt b) = true <-> b < a.
Proof.
  unfold Py.gt. simpl. destruct (Z.compare_spec a b); split; intros; try lia;
    try reflexivity; discriminate.
Qed.

Lemma lt_int (a b : Z) : Py.lt (PyInt a) (PyInt b) = true <-> a < b.
Proof.
  unfold Py.lt. simpl. destruct (Z.compare_spec a b); split; intros; try lia;
    try reflexivity; discriminate.
Qed.

Lemma le_int (a b : Z) : Py.le (PyInt a) (PyInt b) = true <-> a <= b.
Proof.
  unfold Py.le. simpl. destruct (Z.compare_spec a b); split; intros; try lia;
    try reflexivity; discriminate.
Qed.

(** Against an [int], a number that is ordered and not [>=] is [<]. *)
Lemma ge_false_lt (t : number) (a b : Z) :
  Py.ge t (PyInt b) = true -> Py.ge t (PyInt a) = false ->
  Py.lt t (PyInt a) = true.
Proof.
  unfold Py.ge, Py.lt. intros Hb Ha.
  destruct (Py.compare t (PyInt b)) as [cb|] eqn:Eb; try discriminate.
  destruct (compare_int_defined t b a cb Eb) as [ca Ea]. rewrite Ea in *.
  destruct ca; congruence.
Qed.

Lemma gt_ge_false_lt (t : number) (a b : Z) :
  Py.gt t (PyInt b) = true -> Py.ge t (PyInt a) = false ->
  Py.lt t (PyInt a) = true.
Proof.
  unfold Py.gt, Py.ge, Py.lt. intros Hb Ha.
  destruct (Py.compare t (PyInt b)) as [cb|] eqn:Eb; try discriminate.
  destruct (compare_int_defined t b a cb Eb) as [ca Ea]. rewrite Ea in *.
  destruct ca; congruence.
Qed.

(** On two [float]s, [<] and [<=] are the primitive comparisons. *)
Lemma lt_float (a b : float) : Py.lt (PyFloat a) (PyFloat b) = (a <? b)%float.
Proof.
  unfold Py.lt. simpl. unfold cmp_float_float.
  rewrite FloatAxioms.compare_spec, ltb_spec. unfold SFltb.
  destruct (SFcompare (Prim2SF a) (Prim2SF b)) as [[]|]; reflexivity.
Qed.

Lemma le_float (a b : float) : Py.le (PyFloat a) (PyFloat b) = (a <=? b)%float.
Proof.
  unfold Py.le. simpl. unfold cmp_float_float.
  rewrite FloatAxioms.compare_spec, leb_spec. unfold SFleb.
  destruct (SFcompare (Prim2SF a) (Prim2SF b)) as [[]|]; reflexivity.
Qed.

(** An [int] is compared with a [float] exactly: [2**53 + 1] is above the
    float [2.0**53], to which it would be rounded. *)
Example int_float_exact :
  Py.gt (PyInt (2 ^ 53 + 1)) (PyFloat 9007199254740992) = true
  /\ float_of_int (2 ^ 53 + 1) = Ret 9007199254740992%float.
Proof. split; vm_compute; reflexivity. Qed.

(** The chain of tests of [get_order_category], each band with both its
    bounds. *)
Lemma category_bands (t : number) :
  get_order_category t =
    if Py.ge t (PyInt 1000) then lit "HIGH"
    else if Py.ge t (PyInt 500) && Py.lt t (PyInt 1000) then lit "MEDIUM"
    else if Py.gt t (PyInt 0) && Py.lt t (PyInt 500) then lit "LOW"
    else lit "INVALID".
Proof.
  unfold get_order_category.
  destruct (Py.ge t (PyInt 1000)) eqn:H1000; [reflexivity|].
  destruct (Py.ge t (PyInt 500)) eqn:H500.
  - now rewrite (ge_false_lt t 1000 500 H500 H1000).
  - simpl. destruct (Py.gt t (PyInt 0)) eqn:H0; [|reflexivity].
    now rewrite (gt_ge_false_lt t 500 0 H0 H500).
Qed.

(** ** Products *)











(** ** Prefixes *)

Lemma startswith_spec (p s : pystr) :
  startswith s p = true <-> exists rest, s = p ++ rest.
Proof.
  revert s. induction p as [|c p IH]; intros s; simpl.
  - split; [intros _; now exists s | reflexivity].
  - destruct s as [|d s]; simpl.
    + split; [discriminate | intros [rest H]; discriminate].
    + rewrite andb_true_iff, N.eqb_eq, IH. split.
      * intros [-> [rest ->]]. now exists rest.
      * intros [rest [= -> ->]]. split; eauto.
Qed.

(** ** Loops that collect *)

Section Loops.

Context {A : Type} (p : A -> bool).

(** A loop that appends the elements passing a test builds their
    sub-list, in order. *)
Lemma fold_left_append_filter (l acc : list A) :
  fold_left (fun acc x => if p x then acc ++ [x] else acc) l acc
  = acc ++ List.filter p l.
Proof.
  revert acc. induction l as [|x l IH]; intros acc; simpl.
  - now rewrite app_nil_r.
  - rewrite IH. destruct (p x); [now rewrite <- app_assoc | reflexivity].
Qed.

Lemma length_zero_nil (l : list A) : Nat.eqb (length l) 0 = true <-> l = [].
Proof. destruct l; simpl; split; congruence. Qed.

Lemma filter_nil_iff (l : list A) :
  List.filter p l = [] <-> forall x, In x l -> p x = false.
Proof.
  induction l as [|x l IH]; simpl.
  - split; [intros _ y [] | reflexivity].
  - destruct (p x) eqn:E.
    + split; [discriminate|]. intros H. specialize (H x (or_introl eq_refl)).
      congruence.
    + rewrite IH. split.
      * intros H y [<-|Hy]; auto.
      * intros H y Hy. apply H. now right.
Qed.

Lemma filter_sublist (l : list A) : List.filter p l `sublist_of` l.
Proof.
  induction l as [|x l IH]; simpl; [constructor|].
  destruct (p x); now constructor.
Qed.

Lemma filter_idem (l : list A) :
  List.filter p (List.filter p l) = List.filter p l.
Proof.
  induction l as [|x l IH]; simpl; [reflexivity|].
  destruct (p x) eqn:E; simpl; [now rewrite E, IH | exact IH].
Qed.

End Loops.

(** ** The loop of [validate_data_types] *)

Lemma validate_data_types_loop (data_dict : gmap pystr pyval)
    (field_types : list (pystr * pytype)) (acc : list pystr) :
  fold_left
    (fun type_errors '(field, expected_type) =>
       match data_dict !! field with
       | Some v =>
           if negb (isinstance v expected_type)
           then type_errors ++ [type_error field expected_type v]
           else type_errors
       | None => type_errors
       end)
    field_types acc
  = acc ++ flat_map (errors_of data_dict) field_types.
Proof.
  revert acc. induction field_types as [|[f t] l IH]; intros acc; simpl.
  - now rewrite app_nil_r.
  - rewrite IH. unfold errors_of at 2. simpl.
    destruct (data_dict !! f) as [v|]; [|reflexivity].
    destruct (negb (isinstance v t)); [now rewrite <- app_assoc | reflexivity].
Qed.

Lemma validate_data_types_errors (data_dict : gmap pystr pyval)
    (field_types : list (pystr * pytype)) :
  snd (validate_data_types data_dict field_types)
  = flat_map (errors_of data_dict) field_types.
Proof.
  unfold validate_data_types. cbv zeta. simpl snd.
  now rewrite validate_data_types_loop.
Qed.


(** ** [strip] *)

Lemma lstrip_all_space (s : pystr) :
  forallb isspace s = true -> lstrip s = [].
Proof.
  induction s as [|c s IH]; simpl; [reflexivity|].
  intros H. apply andb_true_iff in H. destruct H as [Hc Hs].
  rewrite Hc. auto.
Qed.

Lemma lstrip_idem (s : pystr) : lstrip (lstrip s) = lstrip s.
Proof.
  induction s as [|c s IH]; simpl; [reflexivity|].
  destruct (isspace c) eqn:E; [exact IH|]. simpl. now rewrite E.
Qed.

Lemma rstrip_cons (c : N) (s : pystr) :
  rstrip (c :: s)
  = match rstrip s with
    | [] => if isspace c then [] else [c]
    | r => c :: r
    end.
Proof. reflexivity. Qed.

Lemma rstrip_idem (s : pystr) : rstrip (rstrip s) = rstrip s.
Proof.
  induction s as [|c s IH]; [reflexivity|].
  rewrite rstrip_cons. destruct (rstrip s) as [|d r] eqn:E.
  - destruct (isspace c) eqn:Ec; [reflexivity|]. simpl. now rewrite Ec.
  - rewrite rstrip_cons, IH. reflexivity.
Qed.

Lemma lstrip_rstrip (s : pystr) : lstrip (rstrip s) = rstrip (lstrip s).
Proof.
  induction s as [|c s IH]; [reflexivity|].
  rewrite rstrip_cons. simpl lstrip at 2.
  destruct (isspace c) eqn:Ec.
  - rewrite <- IH. destruct (rstrip s) as [|d r]; simpl; [reflexivity|].
    now rewrite Ec.
  - rewrite rstrip_cons.
    destruct (rstrip s) as [|d r]; simpl; now rewrite Ec.
Qed.

Lemma strip_idem (s : pystr) : strip (strip s) = strip s.
Proof.
  unfold strip. now rewrite lstrip_rstrip, lstrip_idem, rstrip_idem.
Qed.

Lemma strip_all_space (s : pystr) : forallb isspace s = true -> strip s = [].
Proof. intros H. unfold strip. now rewrite (lstrip_all_space s H). Qed.

Lemma isascii_lstrip (s : pystr) : isascii s = true -> isascii (lstrip s) = true.
Proof.
  induction s as [|c s IH]; simpl; [reflexivity|].
  intros H. destruct (isspace c); [|exact H].
  apply andb_true_iff in H. now apply IH.
Qed.

Lemma isascii_rstrip (s : pystr) : isascii s = true -> isascii (rstrip s) = true.
Proof.
  induction s as [|c s IH]; [reflexivity|].
  rewrite rstrip_cons. simpl. intros H. apply andb_true_iff in H.
  destruct H as [Hc Hs]. specialize (IH Hs).
  destruct (rstrip s) as [|d r].
  - destruct (isspace c); simpl; [reflexivity | now rewrite Hc].
  - simpl in *. now rewrite Hc, IH.
Qed.

Lemma isascii_strip (s : pystr) : isascii s = true -> isascii (strip s) = true.
Proof. intros H. now apply isascii_rstrip, isascii_lstrip. Qed.

(** ** [title] on ASCII strings *)

(** A test that passes on the 128 ASCII code points holds of each. *)
Lemma ascii_forall (P : N -> bool) :
  forallb P (map N.of_nat (seq 0 128)) = true ->
  forall c, (c < 128)%N -> P c = true.
Proof.
  intros Hall c Hc. rewrite forallb_forall in Hall. apply Hall.
  apply in_map_iff. exists (N.to_nat c). split; [apply N2Nat.id|].
  apply in_seq. lia.
Qed.

Lemma ascii_rows_ok (c : N) : (c < 128)%N -> case_row_ok c = true.
Proof. apply ascii_forall. vm_compute. reflexivity. Qed.

Lemma ascii_case_step (b : bool) (c : N) :
  (c < 128)%N ->
  exists x, case_step b c = [x] /\ (x < 128)%N /\ isspace x = isspace c
            /\ is_cased x = is_cased c /\ case_step b x = [x].
Proof.
  intros Hc. pose proof (ascii_rows_ok c Hc) as H. unfold case_row_ok in H.
  apply andb_true_iff in H. destruct H as [H _]. rewrite forallb_forall in H.
  assert (Hb : In b [true; false]) by (destruct b; simpl; auto).
  specialize (H b Hb). destruct (case_step b c) as [|x [|? ?]]; try discriminate.
  repeat (apply andb_true_iff in H; destruct H as [H ?]).
  exists x. destruct (case_step b x) as [|y [|? ?]]; try discriminate.
  repeat split.
  - now apply N.ltb_lt.
  - now apply Bool.eqb_prop.
  - now apply Bool.eqb_prop.
  - f_equal. now apply N.eqb_eq.
Qed.

Lemma ascii_space_not_cased (c : N) :
  (c < 128)%N -> isspace c = true -> is_cased c = false.
Proof.
  intros Hc Hs. pose proof (ascii_rows_ok c Hc) as H. unfold case_row_ok in H.
  apply andb_true_iff in H. destruct H as [_ H]. rewrite Hs in H.
  now apply negb_true_iff in H.
Qed.

Lemma do_title_cons (b : bool) (c : N) (s : pystr) :
  do_title b (c :: s) = case_step b c ++ do_title (is_cased c) s.
Proof. reflexivity. Qed.

Lemma isascii_cons (c : N) (s : pystr) :
  isascii (c :: s) = true <-> (c < 128)%N /\ isascii s = true.
Proof. simpl. now rewrite andb_true_iff, N.ltb_lt. Qed.

Lemma do_title_nil_iff (b : bool) (s : pystr) :
  isascii s = true -> do_title b s = [] -> s = [].
Proof.
  destruct s as [|c s]; [reflexivity|].
  rewrite isascii_cons, do_title_cons. intros [Hc _].
  destruct (ascii_case_step b c Hc) as (x & -> & _). discriminate.
Qed.


Lemma lstrip_title (s : pystr) :
  isascii s = true -> lstrip (title s) = title (lstrip s).
Proof.
  unfold title. induction s as [|c s IH]; [reflexivity|].
  rewrite isascii_cons, do_title_cons. intros [Hc Hs].
  destruct (ascii_case_step false c Hc) as (x & Hstep & _ & Hsp & _).
  rewrite Hstep. simpl. rewrite Hsp. destruct (isspace c) eqn:E.
  - rewrite (ascii_space_not_cased c Hc E). now apply IH.
  - now rewrite do_title_cons, Hstep.
Qed.

Lemma rstrip_do_title (b : bool) (s : pystr) :
  isascii s = true -> rstrip (do_title b s) = do_title b (rstrip s).
Proof.
  revert b. induction s as [|c s IH]; intros b; [reflexivity|].
  rewrite isascii_cons. intros [Hc Hs].
  rewrite (do_title_cons b c s), (rstrip_cons c s).
  destruct (ascii_case_step b c Hc) as (x & Hstep & _ & Hsp & _).
  rewrite Hstep.
  change ([x] ++ do_title (is_cased c) s) with (x :: do_title (is_cased c) s).
  rewrite rstrip_cons, (IH _ Hs).
  destruct (rstrip s) as [|d r] eqn:E.
  - change (do_title (is_cased c) []) with (@nil N). rewrite Hsp.
    destruct (isspace c); [reflexivity|]. now rewrite do_title_cons, Hstep.
  - rewrite (do_title_cons b c (d :: r)), Hstep.
    remember (do_title (is_cased c) (d :: r)) as t eqn:Et.
    destruct t as [|? ?]; [|reflexivity].
    symmetry in Et. apply do_title_nil_iff in Et; [discriminate|].
    rewrite <- E. now apply isascii_rstrip.
Qed.

Lemma strip_title (s : pystr) :
  isascii s = true -> strip (title s) = title (strip s).
Proof.
  intros H. unfold strip. rewrite (lstrip_title s H). unfold title.
  apply rstrip_do_title. now apply isascii_lstrip.
Qed.


(** ** [lower] on ASCII strings *)

Lemma lower_cons (c : N) (s : pystr) :
  lower (c :: s) = case_step true c ++ lower s.
Proof. reflexivity. Qed.

Lemma lower_idem (s : pystr) : isascii s = true -> lower (lower s) = lower s.
Proof.
  induction s as [|c s IH]; [reflexivity|].
  rewrite isascii_cons, lower_cons. intros [Hc Hs].
  destruct (ascii_case_step true c Hc) as (x & -> & _ & _ & _ & Hfix).
  simpl app. now rewrite lower_cons, Hfix, (IH Hs).
Qed.

Lemma lower_nil_iff (s : pystr) : isascii s = true -> lower s = [] -> s = [].
Proof.
  destruct s as [|c s]; [reflexivity|].
  rewrite isascii_cons, lower_cons. intros [Hc _].
  destruct (ascii_case_step true c Hc) as (x & -> & _). discriminate.
Qed.

Lemma lstrip_lower (s : pystr) :
  isascii s = true -> lstrip (lower s) = lower (lstrip s).
Proof.
  induction s as [|c s IH]; [reflexivity|].
  rewrite isascii_cons, lower_cons. intros [Hc Hs].
  destruct (ascii_case_step true c Hc) as (x & Hstep & _ & Hsp & _).
  rewrite Hstep. simpl. rewrite Hsp. destruct (isspace c).
  - now apply IH.
  - now rewrite lower_cons, Hstep.
Qed.

Lemma rstrip_lower (s : pystr) :
  isascii s = true -> rstrip (lower s) = lower (rstrip s).
Proof.
  induction s as [|c s IH]; [reflexivity|].
  rewrite isascii_cons. intros [Hc Hs].
  rewrite (lower_cons c s), (rstrip_cons c s).
  destruct (ascii_case_step true c Hc) as (x & Hstep & _ & Hsp & _).
  rewrite Hstep. change ([x] ++ lower s) with (x :: lower s).
  rewrite rstrip_cons, (IH Hs).
  destruct (rstrip s) as [|d r] eqn:E.
  - change (lower []) with (@nil N). rewrite Hsp.
    destruct (isspace c); [reflexivity|]. now rewrite lower_cons, Hstep.
  - rewrite (lower_cons c (d :: r)), Hstep.
    remember (lower (d :: r)) as t eqn:Et.
    destruct t as [|? ?]; [|reflexivity].
    symmetry in Et. apply lower_nil_iff in Et; [discriminate|].
    rewrite <- E. now apply isascii_rstrip.
Qed.


(** ** Digits *)

Lemma ascii_isdigit (c : N) : (c < 128)%N -> isdigit c = is_ascii_digit c.
Proof.
  intros Hc. apply Bool.eqb_prop.
  revert c Hc. apply (ascii_forall (fun c => Bool.eqb (isdigit c) (is_ascii_digit c))).
  vm_compute. reflexivity.
Qed.

(** * Properties of the library *)










(** C4. [check_order_id("")] is [(False, "Order ID is empty")] (and so is
    an absent id); [check_order_id("ORD-2025-001")] is [(True, "Valid")];
    every non-empty id that does not begin with [ORD-] gets the message
    that it must start with [ORD-]; every id that begins with [ORD-] is
    valid, and one of them has not the documented shape [ORD-YYYY-NNN]. *)
Theorem check_order_id_prefix_only :
  check_order_id None = (false, [Text "Order ID is empty"]) /\
  check_order_id (Some []) = (false, [Text "Order ID is empty"]) /\
  check_order_id (Some (lit "ORD-2025-001")) = (true, [Text "Valid"]) /\
  (forall s, s <> [] -> ~ (exists rest, s = lit "ORD-" ++ rest) ->
     check_order_id (Some s) = (false, [Text "Order ID must start with ORD-"])) /\
  (forall rest,
     check_order_id (Some (lit "ORD-" ++ rest)) = (true, [Text "Valid"])) /\
  (exists s,
     (exists rest, s = lit "ORD-" ++ rest) /\
     documented_order_id_shape s = false /\
     check_order_id (Some s) = (true, [Text "Valid"])).
Proof.
  repeat apply conj; try reflexivity.
  - intros s Hne Hpre. unfold check_order_id.
    destruct s as [|c s]; [congruence|].
    destruct (startswith (c :: s) (lit "ORD-")) eqn:E; [|reflexivity].
    apply startswith_spec in E. contradiction.
  - exists (lit "ORD-banana"). repeat apply conj; try reflexivity.
    now exists (lit "banana").
Qed.

(** The id [XYZ-1] lacks the prefix. *)
Lemma check_order_id_prefix_only_witness :
  check_order_id (Some (lit "XYZ-1"))
  = (false, [Text "Order ID must start with ORD-"]).
Proof.
  apply (proj1 (proj2 (proj2 (proj2 check_order_id_prefix_only)))).
  - discriminate.
  - intros [rest H]. discriminate H.
Defined.

(** C5. [get_order_category] returns HIGH for a total >= 1000, MEDIUM
    for 500 <= total < 1000, LOW for 0 < total < 500 and INVALID for
    every other total (a NaN among them); a total that is <= 0 (exactly
    zero, or negative) is INVALID; [get_order_category(1999.98)] is HIGH
    and [get_order_category(0)] is INVALID. *)
Theorem get_order_category_bands :
  (forall t, Py.ge t (PyInt 1000) = true ->
             get_order_category t = lit "HIGH") /\
  (forall t, Py.ge t (PyInt 500) = true -> Py.lt t (PyInt 1000) = true ->
             get_order_category t = lit "MEDIUM") /\
  (forall t, Py.gt t (PyInt 0) = true -> Py.lt t (PyInt 500) = true ->
             get_order_category t = lit "LOW") /\
  (forall t, Py.ge t (PyInt 1000) = false ->
             Py.ge t (PyInt 500) && Py.lt t (PyInt 1000) = false ->
             Py.gt t (PyInt 0) && Py.lt t (PyInt 500) = false ->
             get_order_category t = lit "INVALID") /\
  (forall t, Py.le t (PyInt 0) = true ->
             get_order_category t = lit "INVALID") /\
  (forall z : Z,
     (1000 <= z -> get_order_category (PyInt z) = lit "HIGH")
     /\ (500 <= z < 1000 -> get_order_category (PyInt z) = lit "MEDIUM")
     /\ (0 < z < 500 -> get_order_category (PyInt z) = lit "LOW")
     /\ (z <= 0 -> get_order_category (PyInt z) = lit "INVALID")) /\
  get_order_category (PyFloat float_1999_98) = lit "HIGH" /\
  get_order_category (PyInt 0) = lit "INVALID" /\
  get_order_category (PyFloat 0) = lit "INVALID" /\
  get_order_category (PyFloat nan) = lit "INVALID".
Proof.
  assert (high : forall t, Py.ge t (PyInt 1000) = true ->
                           get_order_category t = lit "HIGH").
  { intros t H. now rewrite category_bands, H. }
  assert (medium : forall t,
            Py.ge t (PyInt 500) = true -> Py.lt t (PyInt 1000) = true ->
            get_order_category t = lit "MEDIUM").
  { intros t H500 H1000.
    now rewrite category_bands, (lt_ge_false _ _ H1000), H500, H1000. }
  assert (low : forall t,
            Py.gt t (PyInt 0) = true -> Py.lt t (PyInt 500) = true ->
            get_order_category t = lit "LOW").
  { intros t H0 H500. rewrite category_bands.
    assert (H1000 : Py.lt t (PyInt 1000) = true)
      by (apply (lt_lt_int t 500); [lia|exact H500]).
    now rewrite (lt_ge_false _ _ H1000), (lt_ge_false _ _ H500), H0, H500. }
  assert (invalid : forall t, Py.le t (PyInt 0) = true ->
                              get_order_category t = lit "INVALID").
  { intros t H. rewrite category_bands.
    assert (H1000 : Py.lt t (PyInt 1000) = true)
      by (apply (le_lt_int t 0); [lia|exact H]).
    assert (H500 : Py.lt t (PyInt 500) = true)
      by (apply (le_lt_int t 0); [lia|exact H]).
    now rewrite (lt_ge_false _ _ H1000), (lt_ge_false _ _ H500),
      (le_gt_false _ _ H). }
  split; [exact high|]. split; [exact medium|]. split; [exact low|].
  split; [intros t H1 H2 H3; now rewrite category_bands, H1, H2, H3|].
  split; [exact invalid|]. split.
  - intros z. repeat apply conj; intros H.
    + apply high, ge_int. lia.
    + apply medium; [apply ge_int | apply lt_int]; lia.
    + apply low; [apply gt_int | apply lt_int]; lia.
    + apply invalid, le_int. lia.
  - repeat apply conj; vm_compute; reflexivity.
Qed.

(** The band of 750 is MEDIUM. *)
Lemma get_order_category_bands_witness :
  Py.ge (PyInt 750) (PyInt 500) = true /\
  Py.lt (PyInt 750) (PyInt 1000) = true /\
  get_order_category (PyInt 750) = lit "MEDIUM".
Proof.
  split; [reflexivity|]. split; [reflexivity|].
  apply (proj1 (proj2 get_order_category_bands)); reflexivity.
Defined.


(** C7. [check_data_completeness] returns the required fields that are
    absent from the record or hold a falsy value (the empty string, zero,
    [None]), in the order of [required_fields], and [True] with the empty
    list exactly when every required field is present with a truthy
    value; on the example record the answer is [(False, ["email"])]. *)
Theorem check_data_completeness_spec :
  (forall (data_dict : gmap pystr pyval) (required_fields : list pystr),
     let r := check_data_completeness data_dict required_fields in
     snd r = List.filter (field_missing data_dict) required_fields
     /\ (fst r = true <-> snd r = [])
     /\ (r = (true, []) <->
         forall field, In field required_fields ->
           exists v, data_dict !! field = Some v /\ truthy v = true)) /\
  (forall (data_dict : gmap pystr pyval) (field : pystr),
     field_missing data_dict field = true <->
     data_dict !! field = None
     \/ exists v, data_dict !! field = Some v /\ truthy v = false) /\
  truthy (VStr []) = false /\ truthy (VInt 0) = false /\
  truthy VNone = false /\
  check_data_completeness example_record [lit "name"; lit "email"; lit "age"]
  = (false, [lit "email"]).
Proof.
  assert (missing_iff : forall (d : gmap pystr pyval) f,
    field_missing d f = true <->
    d !! f = None \/ exists v, d !! f = Some v /\ truthy v = false).
  { intros d f. unfold field_missing. destruct (d !! f) as [v|].
    - rewrite negb_true_iff. split.
      + intros H. right. now exists v.
      + intros [H|(v' & [= <-] & H)]; [discriminate | exact H].
    - split; [now left | reflexivity]. }
  repeat apply conj; try reflexivity; [|exact missing_iff].
  intros d req. unfold check_data_completeness. cbv zeta.
  rewrite (fold_left_append_filter (field_missing d) req []). simpl.
  repeat apply conj; try reflexivity.
  - apply length_zero_nil.
  - intros H. apply length_zero_nil. exact H.
  - intros [= Hlen Hnil] f Hf.
    pose proof (proj1 (filter_nil_iff _ _) Hnil f Hf) as Hm.
    unfold field_missing in Hm. destruct (d !! f) as [v|]; [|discriminate].
    exists v. split; [reflexivity|]. now apply negb_false_iff.
  - intros H.
    assert (Hnil : List.filter (field_missing d) req = []).
    { apply filter_nil_iff. intros f Hf. destruct (H f Hf) as (v & Hv & Ht).
      unfold field_missing. now rewrite Hv, Ht. }
    now rewrite Hnil.
Qed.

(** The one-field record with an empty email is incomplete. *)
Lemma check_data_completeness_spec_witness :
  field_missing (<[lit "email" := VStr []]> ∅) (lit "email") = true.
Proof.
  apply (proj1 (proj2 check_data_completeness_spec)). right.
  exists (VStr []). split; reflexivity.
Defined.



(** C9. On a string of white space only, on the empty string and on
    [None], the three cleaners return the empty string. *)
Theorem cleaners_collapse_whitespace :
  forall s : pystr, forallb isspace s = true ->
    clean_name (Some s) = []
    /\ clean_email (Some s) = []
    /\ clean_product_name (Some s) = []
    /\ clean_name None = []
    /\ clean_email None = []
    /\ clean_product_name None = [].
Proof.
  intros s H. unfold clean_name, clean_email, clean_product_name.
  destruct s as [|c s]; [repeat apply conj; reflexivity|].
  rewrite (strip_all_space (c :: s) H). repeat apply conj; reflexivity.
Qed.

(** A space, a tab, a no-break space and an em space. *)
Lemma cleaners_collapse_whitespace_witness :
  clean_name (Some [0x20; 0x9; 0xA0; 0x2003]%N) = []
  /\ clean_email (Some [0x20; 0x9; 0xA0; 0x2003]%N) = []
  /\ clean_product_name (Some [0x20; 0x9; 0xA0; 0x2003]%N) = []
  /\ clean_name None = []
  /\ clean_email None = []
  /\ clean_product_name None = [].
Proof.
  apply (cleaners_collapse_whitespace [0x20; 0x9; 0xA0; 0x2003]%N).
  reflexivity.
Defined.

(** C10, as the code has it. [clean_phone_number] returns the characters
    of its input that [str.isdigit] accepts, in their order: a
    subsequence of the input, made of the input's digit characters and
    of nothing else; applied twice it gives what it gives once. The
    characters kept are the decimal digits when every digit character of
    the input is a decimal one, and the digits 0 to 9 on an input of
    ASCII characters. *)
Theorem clean_phone_number_digits :
  forall phone : pystr,
    clean_phone_number phone `sublist_of` phone
    /\ (forall c, In c (clean_phone_number phone)
                  <-> In c phone /\ isdigit c = true)
    /\ clean_phone_number phone = List.filter isdigit phone
    /\ forallb isdigit (clean_phone_number phone) = true
    /\ clean_phone_number (clean_phone_number phone) = clean_phone_number phone
    /\ ((forall c, In c phone -> isdigit c = isdecimal c) ->
        clean_phone_number phone = List.filter isdecimal phone)
    /\ (isascii phone = true ->
        clean_phone_number phone = List.filter is_ascii_digit phone).
Proof.
  intros phone. unfold clean_phone_number, join_filter. repeat apply conj.
  - apply filter_sublist.
  - intros c. apply filter_In.
  - reflexivity.
  - apply forallb_forall. intros c Hc. now apply filter_In in Hc.
  - apply filter_idem.
  - intros H. now apply filter_ext_in.
  - intros H. apply filter_ext_in. intros c Hc. apply ascii_isdigit.
    unfold isascii in H. rewrite forallb_forall in H. now apply N.ltb_lt, H.
Qed.

(** The telephone number of the test suite. *)
Lemma clean_phone_number_digits_witness :
  clean_phone_number (lit "(123) 456-7890") = lit "1234567890".
Proof.
  rewrite (proj2 (proj2 (proj2 (proj2 (proj2 (proj2
    (clean_phone_number_digits (lit "(123) 456-7890")))))))); reflexivity.
Defined.

(** C10 as stated fails: SUPERSCRIPT TWO (U+00B2) is a digit for
    [str.isdigit] and is kept, and it is not a decimal digit. *)
Lemma clean_phone_number_superscript_counterexample :
  clean_phone_number [0x31; 0xB2]%N = [0x31; 0xB2]%N
  /\ isdecimal 0xB2 = false
  /\ is_ascii_digit 0xB2 = false
  /\ clean_phone_number [0x31; 0xB2]%N <> List.filter isdecimal [0x31; 0xB2]%N.
Proof.
  repeat apply conj; try reflexivity. vm_compute. discriminate.
Qed.

(** * Further properties *)

(** ** Substrings *)

Lemma contains_spec (s sub : pystr) :
  contains s sub = true <-> exists pre post, s = pre ++ sub ++ post.
Proof.
  induction s as [|c s IH]; simpl contains.
  - rewrite orb_false_r, startswith_spec. split.
    + intros [rest H]. now exists [], rest.
    + intros (pre & post & H). symmetry in H.
      apply app_eq_nil in H. destruct H as [-> H].
      apply app_eq_nil in H. destruct H as [-> ->]. now exists [].
  - rewrite orb_true_iff, startswith_spec, IH. split.
    + intros [[rest H]|(pre & post & H)].
      * now exists [], rest.
      * exists (c :: pre), post. now rewrite H.
    + intros ([|d pre] & post & H).
      * left. now exists post.
      * right. injection H as _ H. now exists pre, post.
Qed.

(** A string of one character is contained where the character occurs. *)
Lemma contains_char (s : pystr) (c : N) : contains s [c] = true <-> In c s.
Proof.
  rewrite contains_spec. split.
  - intros (pre & post & ->). apply in_or_app. right. now left.
  - intros H. apply in_split in H. destruct H as (pre & post & ->).
    now exists pre, post.
Qed.

Lemma contains_char_false (s : pystr) (c : N) :
  contains s [c] = false <-> ~ In c s.
Proof. rewrite <- contains_char. now destruct (contains s [c]). Qed.

(** X1. [check_email] looks only at which characters the address has:
    a string is valid exactly when an at sign and a full stop occur in
    it, wherever they stand; a non-empty string that lacks one of them
    is answered "Email must have @ and ."; two strings with the same
    characters in another order get the same answer. *)
Theorem check_email_membership :
  (forall email,
     check_email email = (true, [Text "Valid"])
     <-> exists s, email = Some s /\ In 0x40%N s /\ In 0x2E%N s) /\
  (forall s, s <> [] -> ~ (In 0x40%N s /\ In 0x2E%N s) ->
     check_email (Some s) = (false, [Text "Email must have @ and ."])) /\
  (forall s s', Permutation s s' ->
     check_email (Some s) = check_email (Some s')).
Proof.
  assert (some : forall s, s <> [] ->
    check_email (Some s)
    = if contains s [0x40%N] && contains s [0x2E%N]
      then (true, [Text "Valid"])
      else (false, [Text "Email must have @ and ."])).
  { intros [|c s] Hne; [congruence|]. unfold check_email.
    change (lit "@") with [0x40%N]. change (lit ".") with [0x2E%N].
    destruct (contains (c :: s) [0x40%N]), (contains (c :: s) [0x2E%N]);
      reflexivity. }
  repeat apply conj.
  - intros email. split.
    + destruct email as [[|c s]|]; try (cbn; discriminate).
      rewrite (some (c :: s)) by discriminate.
      destruct (contains (c :: s) [0x40%N]) eqn:Ea;
        destruct (contains (c :: s) [0x2E%N]) eqn:Ed; simpl; try discriminate.
      intros _. exists (c :: s).
      now rewrite <- !contains_char, Ea, Ed.
    + intros (s & -> & Ha & Hd). destruct s as [|c s]; [destruct Ha|].
      rewrite (some (c :: s)) by discriminate.
      apply contains_char in Ha, Hd. now rewrite Ha, Hd.
  - intros s Hne Hno. rewrite (some s Hne).
    destruct (contains s [0x40%N]) eqn:Ea;
      destruct (contains s [0x2E%N]) eqn:Ed; try reflexivity.
    exfalso. apply Hno. now rewrite <- !contains_char, Ea, Ed.
  - intros s s' Hp. destruct s as [|c s].
    + apply Permutation_nil in Hp. now subst.
    + assert (Hne' : s' <> []).
      { intros ->. apply Permutation_sym, Permutation_nil in Hp. discriminate. }
      rewrite (some (c :: s)), (some s' Hne') by discriminate.
      assert (Hc : forall x, contains (c :: s) [x] = contains s' [x]).
      { intros x. apply eq_true_iff_eq. rewrite !contains_char.
        split; apply Permutation_in; [exact Hp | now apply Permutation_sym]. }
      now rewrite !Hc.
Qed.

(** The address [.@] is valid. *)
Lemma check_email_membership_witness :
  check_email (Some [0x2E; 0x40]%N) = (true, [Text "Valid"]).
Proof.
  apply (proj1 check_email_membership). exists [0x2E; 0x40]%N.
  repeat split; simpl; auto.
Defined.

(** X2. [validate_email] accepts exactly the strings in which an at
    sign and a full stop occur, the verdict [check_email] gives on the
    same string; so it accepts an address with nothing before the at
    sign. *)
Theorem validate_email_membership :
  (forall email,
     validate_email email = true <-> In 0x40%N email /\ In 0x2E%N email) /\
  (forall email, validate_email email = fst (check_email (Some email))) /\
  (forall rest, In 0x2E%N rest -> validate_email (0x40%N :: rest) = true).
Proof.
  assert (mem : forall email,
    validate_email email = true <-> In 0x40%N email /\ In 0x2E%N email).
  { intros email. unfold validate_email.
    change (lit "@") with [0x40%N]. change (lit ".") with [0x2E%N].
    now rewrite andb_true_iff, !contains_char. }
  repeat apply conj.
  - exact mem.
  - intros [|c s]; [reflexivity|]. unfold validate_email, check_email.
    destruct (contains (c :: s) (lit "@")), (contains (c :: s) (lit "."));
      reflexivity.
  - intros rest H. apply mem. split; [now left | now right].
Qed.

(** The address [@example.com] of the test suite is accepted. *)
Lemma validate_email_membership_witness :
  validate_email (lit "@example.com") = true.
Proof.
  apply (proj2 (proj2 validate_email_membership) (lit "example.com")).
  simpl. tauto.
Defined.

(** ** NaN and the orderings *)

Lemma compare_swap_int (a : number) (z : Z) :
  Py.compare a (PyInt z) = option_map CompOpp (Py.compare (PyInt z) a).
Proof.
  destruct a as [b|f]; simpl; [|reflexivity].
  now rewrite (Z.compare_antisym z b).
Qed.

Lemma compare_nan_l (y : number) : Py.compare (PyFloat nan) y = None.
Proof.
  destruct y as [z|b]; simpl.
  - reflexivity.
  - unfold cmp_float_float. rewrite FloatAxioms.compare_spec.
    change (Prim2SF nan) with S754_nan. reflexivity.
Qed.

Lemma compare_nan_r (x : number) : Py.compare x (PyFloat nan) = None.
Proof.
  destruct x as [z|a]; simpl.
  - reflexivity.
  - unfold cmp_float_float. rewrite FloatAxioms.compare_spec.
    change (Prim2SF nan) with S754_nan.
    destruct (Prim2SF a); reflexivity.
Qed.

(** X3. [validate_age] accepts an [int] age exactly from 0 to 100 and
    rejects NaN. Whatever it accepts, [check_age] with the bounds 0 and
    100 accepts, and on [int]s the two agree; [check_age] accepts NaN as
    well. *)
Theorem validate_age_range :
  (forall a : Z, validate_age (PyInt a) = true <-> 0 <= a <= 100) /\
  validate_age (PyFloat nan) = false /\
  (forall a, validate_age a = true ->
     check_age (Some a) (PyInt 0) (PyInt 100) = (true, [Text "Valid"])) /\
  (forall a : Z,
     fst (check_age (Some (PyInt a)) (PyInt 0) (PyInt 100))
     = validate_age (PyInt a)) /\
  check_age (Some (PyFloat nan)) (PyInt 0) (PyInt 100) = (true, [Text "Valid"]).
Proof.
  repeat apply conj; try reflexivity.
  - intros a. unfold validate_age. now rewrite andb_true_iff, !le_int.
  - intros a. unfold validate_age. rewrite andb_true_iff. intros [H0 H100].
    unfold check_age. rewrite (le_gt_false _ _ H100).
    assert (Hlt : Py.lt a (PyInt 0) = false).
    { unfold Py.lt, Py.le in *. rewrite compare_swap_int.
      destruct (Py.compare (PyInt 0) a) as [[]|]; simpl; congruence. }
    now rewrite Hlt.
  - intros a. unfold check_age, validate_age.
    destruct (Py.lt (PyInt a) (PyInt 0)) eqn:E1.
    + apply lt_int in E1. simpl. symmetry. apply andb_false_iff. left.
      apply not_true_iff_false. rewrite le_int. lia.
    + apply not_true_iff_false in E1. rewrite lt_int in E1.
      destruct (Py.gt (PyInt a) (PyInt 100)) eqn:E2.
      * apply gt_int in E2. simpl. symmetry. apply andb_false_iff. right.
        apply not_true_iff_false. rewrite le_int. lia.
      * apply not_true_iff_false in E2. rewrite gt_int in E2.
        simpl. symmetry. apply andb_true_iff. rewrite !le_int. lia.
Qed.

(** The age 25 of the test suite. *)
Lemma validate_age_range_witness :
  check_age (Some (PyInt 25)) (PyInt 0) (PyInt 100) = (true, [Text "Valid"]).
Proof.
  apply (proj1 (proj2 (proj2 validate_age_range))). reflexivity.
Defined.

(** X4. The range validators let NaN through: a NaN quantity, price or
    age passes whatever the bounds are, and NaN bounds reject no price
    and no age. *)
Theorem range_validators_accept_nan :
  (forall max_allowed,
     check_quantity (Some (PyFloat nan)) max_allowed = (true, [Text "Valid"])) /\
  (forall min_price max_price,
     check_price (Some (PyFloat nan)) min_price max_price
     = (true, [Text "Valid"])) /\
  (forall min_age max_age,
     check_age (Some (PyFloat nan)) min_age max_age = (true, [Text "Valid"])) /\
  (forall p,
     check_price (Some p) (PyFloat nan) (PyFloat nan) = (true, [Text "Valid"])) /\
  (forall a,
     check_age (Some a) (PyFloat nan) (PyFloat nan) = (true, [Text "Valid"])).
Proof.
  repeat apply conj; intros;
    unfold check_quantity, check_price, check_age, Py.le, Py.lt, Py.gt;
    now rewrite ?compare_nan_l, ?compare_nan_r.
Qed.

(** X5. On [int]s the range validators accept exactly the closed range
    between the bounds ([check_quantity]: above 0, up to [max_allowed]);
    with the bounds in the wrong order no [int] price and no [int] age
    is accepted. *)
Theorem range_validators_int_ranges :
  forall v lo hi : Z,
    (check_quantity (Some (PyInt v)) (PyInt hi) = (true, [Text "Valid"])
     <-> 0 < v <= hi)
    /\ (check_price (Some (PyInt v)) (PyInt lo) (PyInt hi)
        = (true, [Text "Valid"]) <-> lo <= v <= hi)
    /\ (check_age (Some (PyInt v)) (PyInt lo) (PyInt hi)
        = (true, [Text "Valid"]) <-> lo <= v <= hi)
    /\ (hi < lo ->
        fst (check_price (Some (PyInt v)) (PyInt lo) (PyInt hi)) = false
        /\ fst (check_age (Some (PyInt v)) (PyInt lo) (PyInt hi)) = false).
Proof.
  intros v lo hi.
  unfold check_quantity, check_price, check_age, Py.le, Py.lt, Py.gt. simpl.
  destruct (Z.compare_spec v 0), (Z.compare_spec v lo), (Z.compare_spec v hi);
    repeat apply conj; try (intros; simpl; first [reflexivity | lia]);
    try (split; intros; first [reflexivity | lia | discriminate]).
Qed.

(** With the bounds 120 and 18 taken the wrong way round, 50 is refused. *)
Lemma range_validators_int_ranges_witness :
  fst (check_age (Some (PyInt 50)) (PyInt 120) (PyInt 18)) = false.
Proof.
  apply (proj2 (proj2 (proj2 (range_validators_int_ranges 50 120 18)))). lia.
Defined.

(** ** Products commute *)

Lemma float_mul_comm (a b : float) : (a * b)%float = (b * a)%float.
Proof.
  apply Prim2SF_inj. rewrite !mul_spec. unfold SF64mul, SFmul.
  destruct (Prim2SF a) as [s|s| |s m e], (Prim2SF b) as [s'|s'| |s' m' e'];
    try reflexivity; try (now rewrite (xorb_comm s s')).
  now rewrite (xorb_comm s s'), (Pos.mul_comm m m'), (Z.add_comm e e').
Qed.

Lemma mul_comm (x y : number) : mul x y = mul y x.
Proof.
  destruct x as [a|a], y as [b|b]; simpl.
  - now rewrite Z.mul_comm.
  - destruct (float_of_int a); simpl; [now rewrite float_mul_comm|reflexivity].
  - destruct (float_of_int b); simpl; [now rewrite float_mul_comm|reflexivity].
  - now rewrite float_mul_comm.
Qed.


(** ** Totals of [int]s *)

Lemma category_int (z : Z) :
  get_order_category (PyInt z) =
    if 1000 <=? z then lit "HIGH"
    else if 500 <=? z then lit "MEDIUM"
    else if 0 <? z then lit "LOW"
    else lit "INVALID".
Proof.
  unfold get_order_category, Py.ge, Py.gt. simpl.
  destruct (Z.leb_spec 1000 z), (Z.leb_spec 500 z), (Z.ltb_spec 0 z);
    destruct (Z.compare_spec z 1000); try lia;
    destruct (Z.compare_spec z 500); try lia;
    destruct (Z.compare_spec z 0); try lia; reflexivity.
Qed.

(** X7. The total of an [int] quantity and an [int] price is their exact
    product, an [int], and its category is INVALID exactly when the
    product is not positive: a negative quantity with a negative price
    is not INVALID. So it is for the order of the test suite, quantity
    -1 at the price -299.99: the total is 299.99 and the category LOW. *)
Theorem negative_inputs_not_invalid :
  (forall q p : Z,
     calculate_total (Some (PyInt q)) (Some (PyInt p)) = Ret (PyInt (q * p))) /\
  (forall q p : Z,
     get_order_category (PyInt (q * p)) = lit "INVALID" <-> q * p <= 0) /\
  (forall q p : Z, q < 0 -> p < 0 ->
     get_order_category (PyInt (q * p)) <> lit "INVALID") /\
  calculate_total (Some (PyInt (-1))) (Some (PyFloat float_neg_299_99))
  = Ret (PyFloat float_299_99) /\
  get_order_category (PyFloat float_299_99) = lit "LOW".
Proof.
  assert (invalid : forall z,
    get_order_category (PyInt z) = lit "INVALID" <-> z <= 0).
  { intros z. rewrite category_int.
    destruct (Z.leb_spec 1000 z); [split; [discriminate|lia]|].
    destruct (Z.leb_spec 500 z); [split; [discriminate|lia]|].
    destruct (Z.ltb_spec 0 z); [split; [discriminate|lia]|].
    split; [lia|reflexivity]. }
  repeat apply conj.
  - reflexivity.
  - intros q p. apply invalid.
  - intros q p Hq Hp H. apply invalid in H. nia.
  - vm_compute. reflexivity.
  - vm_compute. reflexivity.
Qed.

(** Minus two items at minus 300 fall in the MEDIUM band. *)
Lemma negative_inputs_not_invalid_witness :
  get_order_category (PyInt (-2 * -300)) <> lit "INVALID".
Proof.
  apply (proj1 (proj2 (proj2 negative_inputs_not_invalid))); lia.
Defined.

(** X8. [calculate_tax] returns a [float] or raises: on a [float] total
    it always returns, and a total that [calculate_total] computed from
    a [float] quantity or price is such a total; no [int] comes out of
    it, even for an [int] total. *)
Theorem calculate_tax_float :
  (forall f, exists g, calculate_tax (PyFloat f) = Ret (PyFloat g)) /\
  (forall total t, calculate_tax total = Ret t -> exists g, t = PyFloat g) /\
  (forall q p t f,
     q = PyFloat f \/ p = PyFloat f ->
     calculate_total (Some q) (Some p) = Ret t ->
     exists g, calculate_tax t = Ret (PyFloat g)).
Proof.
  assert (on_float : forall f, exists g, calculate_tax (PyFloat f) = Ret (PyFloat g)).
  { intros f. now eexists. }
  repeat apply conj.
  - exact on_float.
  - intros [z|f] t; unfold calculate_tax; simpl.
    + destruct (float_of_int z); simpl; [|discriminate].
      intros [= <-]. now eexists.
    + intros [= <-]. now eexists.
  - intros q p t f Hf. simpl.
    destruct q as [a|a], p as [b|b]; simpl.
    + destruct Hf as [Hf|Hf]; discriminate Hf.
    + destruct (float_of_int a); simpl; [|discriminate].
      intros [= <-]. apply on_float.
    + destruct (float_of_int b); simpl; [|discriminate].
      intros [= <-]. apply on_float.
    + intros [= <-]. apply on_float.
Qed.

(** Two items at 999.99: the tax on the total is 200.0. *)
Lemma calculate_tax_float_witness :
  exists g, calculate_tax (PyFloat float_1999_98) = Ret (PyFloat g).
Proof.
  apply (proj2 (proj2 calculate_tax_float)
           (PyInt 2) (PyFloat float_999_99) _ float_999_99).
  - now right.
  - vm_compute. reflexivity.
Defined.

(** ** Shape of cleaned strings *)

Lemma ascii_case_step_shape (b : bool) (c : N) :
  (c < 128)%N ->
  exists x l,
    case_step b c = [x] /\ to_lower_full c = [l]
    /\ (if is_upper_ascii x then negb b
        else if is_lower_ascii x then b else true) = true
    /\ (x = 0x40%N <-> c = 0x40%N) /\ (x = 0x2E%N <-> c = 0x2E%N)
    /\ (l < 128)%N /\ is_cased l = is_cased c /\ case_step b l = [x].
Proof.
  intros Hc.
  assert (H : case_row_shape_ok c = true).
  { revert c Hc. apply ascii_forall. vm_compute. reflexivity. }
  unfold case_row_shape_ok in H. rewrite forallb_forall in H.
  assert (Hb : In b [true; false]) by (destruct b; simpl; auto).
  specialize (H b Hb).
  destruct (case_step b c) as [|x [|? ?]]; try discriminate.
  apply andb_true_iff in H as [H Hl]. apply andb_true_iff in H as [H Hdot].
  apply andb_true_iff in H as [Hshape Hat].
  destruct (to_lower_full c) as [|l [|? ?]]; try discriminate.
  apply andb_true_iff in Hl as [Hl Hstep].
  apply andb_true_iff in Hl as [Hlt Hcased].
  destruct (case_step b l) as [|y [|? ?]] eqn:El; try discriminate.
  apply Bool.eqb_prop in Hat, Hdot, Hcased.
  apply N.eqb_eq in Hstep. apply N.ltb_lt in Hlt.
  exists x, l. repeat apply conj; try reflexivity; try assumption.
  - intros ->. apply N.eqb_eq. now rewrite <- Hat.
  - intros ->. apply N.eqb_eq. now rewrite Hat.
  - intros ->. apply N.eqb_eq. now rewrite <- Hdot.
  - intros ->. apply N.eqb_eq. now rewrite Hdot.
  - now rewrite <- Hstep.
Qed.

Lemma lstrip_head (s t : pystr) (c : N) :
  lstrip s = c :: t -> isspace c = false.
Proof.
  induction s as [|d s IH]; simpl; [discriminate|].
  destruct (isspace d) eqn:E; [exact IH|]. now intros [= <- _].
Qed.

Lemma rstrip_last (s t : pystr) (c : N) :
  rstrip s = t ++ [c] -> isspace c = false.
Proof.
  revert t. induction s as [|d s IH]; intros t; [now destruct t|].
  rewrite rstrip_cons. destruct (rstrip s) as [|e r].
  - destruct (isspace d) eqn:E; [now destruct t|].
    destruct t as [|? [|? ?]]; try discriminate. now intros [= <-].
  - destruct t as [|d' t]; [discriminate|].
    intros [= _ H]. now apply (IH t).
Qed.

Lemma length_lstrip (s : pystr) : (length (lstrip s) <= length s)%nat.
Proof.
  induction s as [|c s IH]; simpl; [lia|]. destruct (isspace c); simpl; lia.
Qed.

Lemma length_rstrip (s : pystr) : (length (rstrip s) <= length s)%nat.
Proof.
  induction s as [|c s IH]; [simpl; lia|]. rewrite rstrip_cons.
  destruct (rstrip s); [destruct (isspace c)|]; simpl in *; lia.
Qed.

Lemma length_strip (s : pystr) : (length (strip s) <= length s)%nat.
Proof.
  unfold strip. pose proof (length_rstrip (lstrip s)).
  pose proof (length_lstrip s). lia.
Qed.

(** A stripped string neither begins nor ends with white space. *)
Lemma strip_ends (s t : pystr) (c : N) :
  (strip s = c :: t -> isspace c = false)
  /\ (strip s = t ++ [c] -> isspace c = false).
Proof.
  split.
  - unfold strip. rewrite <- lstrip_rstrip. apply lstrip_head.
  - unfold strip. apply rstrip_last.
Qed.

Lemma length_do_title (b : bool) (s : pystr) :
  isascii s = true -> length (do_title b s) = length s.
Proof.
  revert b. induction s as [|c s IH]; intros b; [reflexivity|].
  rewrite isascii_cons, do_title_cons. intros [Hc Hs].
  destruct (ascii_case_step b c Hc) as (x & -> & _). simpl.
  now rewrite (IH _ Hs).
Qed.

Lemma titlecased_do_title (b : bool) (s : pystr) :
  isascii s = true -> titlecased b (do_title b s) = true.
Proof.
  revert b. induction s as [|c s IH]; intros b; [reflexivity|].
  rewrite isascii_cons, do_title_cons. intros [Hc Hs].
  destruct (ascii_case_step_shape b c Hc) as (x & l & Hx & _ & Hshape & _).
  destruct (ascii_case_step b c Hc) as (x' & Hx' & _ & _ & Hcased & _).
  rewrite Hx in Hx'. injection Hx' as <-.
  rewrite Hx. simpl. rewrite Hshape, Hcased. now apply IH.
Qed.

(** [title] does not see the case of its input. *)
Lemma do_title_lower (b : bool) (s : pystr) :
  isascii s = true -> do_title b (lower s) = do_title b s.
Proof.
  revert b. induction s as [|c s IH]; intros b; [reflexivity|].
  rewrite isascii_cons, lower_cons, do_title_cons. intros [Hc Hs].
  destruct (ascii_case_step_shape b c Hc)
    as (x & l & Hx & Hl & _ & _ & _ & _ & Hcased & Hstep).
  change (case_step true c) with (to_lower_full c). rewrite Hl. simpl app.
  now rewrite do_title_cons, Hstep, Hx, Hcased, (IH _ Hs).
Qed.

Lemma strip_lower (s : pystr) :
  isascii s = true -> strip (lower s) = lower (strip s).
Proof.
  intros H. unfold strip.
  now rewrite (lstrip_lower s H), (rstrip_lower _ (isascii_lstrip s H)).
Qed.

Lemma lower_nonempty (s : pystr) :
  isascii s = true -> s <> [] -> lower s <> [].
Proof. intros H Hne E. now apply lower_nil_iff in E. Qed.

(** X9. [standardize_name], [clean_name] and [clean_product_name] are
    one function. On an ASCII string the result is no longer than the
    input, neither begins nor ends with white space, and is in title
    case: its capitals follow characters that are not letters, its small
    letters follow letters. *)
Theorem names_normal_form :
  forall s : pystr, isascii s = true ->
    let out := standardize_name (Some s) in
    clean_name (Some s) = out
    /\ clean_product_name (Some s) = out
    /\ (length out <= length s)%nat
    /\ strip out = out
    /\ (forall c t, out = c :: t -> isspace c = false)
    /\ (forall c t, out = t ++ [c] -> isspace c = false)
    /\ titlecased false out = true.
Proof.
  intros s Hs out.
  assert (Hout : out = title (strip s)).
  { subst out. unfold standardize_name. now destruct s. }
  assert (Hstrip : out = strip (title s)) by (now rewrite strip_title).
  pose proof (isascii_strip s Hs) as Hss.
  repeat apply conj.
  - subst out. reflexivity.
  - subst out. reflexivity.
  - rewrite Hout. unfold title. rewrite (length_do_title _ _ Hss).
    apply length_strip.
  - rewrite Hstrip. apply strip_idem.
  - intros c t E. rewrite Hstrip in E.
    exact (proj1 (strip_ends (title s) t c) E).
  - intros c t E. rewrite Hstrip in E.
    exact (proj2 (strip_ends (title s) t c) E).
  - rewrite Hout. now apply titlecased_do_title.
Qed.

(** The name of the test suite. *)
Lemma names_normal_form_witness :
  standardize_name (Some (lit "  JANE SMITH  ")) = lit "Jane Smith"
  /\ titlecased false (standardize_name (Some (lit "  JANE SMITH  "))) = true.
Proof.
  split; [reflexivity|].
  apply (names_normal_form (lit "  JANE SMITH  ")). reflexivity.
Defined.

(** X10. The cleaners do not see the case of their input: two ASCII
    strings that differ only in the case of their letters are cleaned to
    the same name and to the same address. *)
Theorem cleaners_case_insensitive :
  forall s s' : pystr, isascii s = true -> isascii s' = true ->
    lower s = lower s' ->
    clean_name (Some s) = clean_name (Some s')
    /\ clean_product_name (Some s) = clean_product_name (Some s')
    /\ standardize_name (Some s) = standardize_name (Some s')
    /\ clean_email (Some s) = clean_email (Some s').
Proof.
  assert (name : forall s, isascii s = true ->
            clean_name (Some s) = title (strip (lower s))).
  { intros s Hs. rewrite (strip_lower s Hs). unfold title.
    rewrite (do_title_lower _ _ (isascii_strip s Hs)).
    unfold clean_name. now destruct s. }
  assert (email : forall s, isascii s = true ->
            clean_email (Some s) = lower (strip (lower s))).
  { intros s Hs. rewrite (strip_lower s Hs).
    rewrite (lower_idem _ (isascii_strip s Hs)).
    unfold clean_email. now destruct s. }
  intros s s' Hs Hs' E.
  assert (Hn : clean_name (Some s) = clean_name (Some s'))
    by (now rewrite (name s Hs), (name s' Hs'), E).
  repeat apply conj; try exact Hn.
  now rewrite (email s Hs), (email s' Hs'), E.
Qed.

(** The name of the test suite, in capitals and in small letters. *)
Lemma cleaners_case_insensitive_witness :
  clean_name (Some (lit "JOHN SMITH")) = clean_name (Some (lit "john smith")).
Proof.
  apply (cleaners_case_insensitive (lit "JOHN SMITH") (lit "john smith"));
    reflexivity.
Defined.

(** ** Cleaning and validating an address *)

Lemma In_lstrip (c : N) (s : pystr) :
  isspace c = false -> (In c (lstrip s) <-> In c s).
Proof.
  intros Hc. induction s as [|d s IH]; simpl; [tauto|].
  destruct (isspace d) eqn:E; [|reflexivity].
  rewrite IH. split; [now right|]. intros [->|H]; [congruence|exact H].
Qed.

Lemma In_rstrip (c : N) (s : pystr) :
  isspace c = false -> (In c (rstrip s) <-> In c s).
Proof.
  intros Hc. induction s as [|d s IH]; [simpl; tauto|].
  rewrite rstrip_cons. destruct (rstrip s) as [|e r].
  - destruct (isspace d) eqn:E; simpl in *.
    + split; [tauto|]. intros [->|H]; [congruence|tauto].
    + tauto.
  - simpl in *. tauto.
Qed.

Lemma In_strip (c : N) (s : pystr) :
  isspace c = false -> (In c (strip s) <-> In c s).
Proof.
  intros Hc. unfold strip. now rewrite (In_rstrip c _ Hc), (In_lstrip c _ Hc).
Qed.

(** Lowering neither brings in nor takes away an at sign or a full stop. *)
Lemma In_lower_mark (s : pystr) :
  isascii s = true ->
  (In 0x40%N (lower s) <-> In 0x40%N s)
  /\ (In 0x2E%N (lower s) <-> In 0x2E%N s).
Proof.
  induction s as [|c s IH]; [simpl; tauto|].
  rewrite isascii_cons, lower_cons. intros [Hc Hs].
  destruct (ascii_case_step_shape true c Hc)
    as (x & l & -> & _ & _ & Hat & Hdot & _).
  destruct (IH Hs) as [IHat IHdot]. simpl.
  split; [rewrite IHat | rewrite IHdot]; intuition congruence.
Qed.

Lemma lower_no_capital (s : pystr) :
  isascii s = true ->
  forallb (fun c => negb (is_upper_ascii c)) (lower s) = true.
Proof.
  induction s as [|c s IH]; [reflexivity|].
  rewrite isascii_cons, lower_cons. intros [Hc Hs].
  destruct (ascii_case_step_shape true c Hc) as (x & l & -> & _ & Hshape & _).
  simpl. rewrite (IH Hs), andb_true_r.
  now destruct (is_upper_ascii x).
Qed.

Lemma length_lower (s : pystr) :
  isascii s = true -> length (lower s) = length s.
Proof.
  induction s as [|c s IH]; [reflexivity|].
  rewrite isascii_cons, lower_cons. intros [Hc Hs].
  destruct (ascii_case_step true c Hc) as (x & -> & _). simpl.
  now rewrite (IH Hs).
Qed.

Lemma validate_email_In (email : pystr) :
  validate_email email = true <-> In 0x40%N email /\ In 0x2E%N email.
Proof.
  unfold validate_email.
  change (lit "@") with [0x40%N]. change (lit ".") with [0x2E%N].
  now rewrite andb_true_iff, !contains_char.
Qed.

Lemma check_email_verdict (email : pystr) :
  fst (check_email (Some email)) = validate_email email.
Proof.
  destruct email as [|c s]; [reflexivity|]. unfold validate_email, check_email.
  destruct (contains (c :: s) (lit "@")), (contains (c :: s) (lit "."));
    reflexivity.
Qed.

(** X11. On an ASCII string [clean_email] gives a string that is no
    longer, has no capital letter and neither begins nor ends with white
    space; cleaning does not change the verdict of [check_email] or of
    [validate_email] on the address. *)
Theorem clean_email_normal_form :
  forall s : pystr, isascii s = true ->
    let out := clean_email (Some s) in
    (length out <= length s)%nat
    /\ forallb (fun c => negb (is_upper_ascii c)) out = true
    /\ (forall c t, out = c :: t -> isspace c = false)
    /\ (forall c t, out = t ++ [c] -> isspace c = false)
    /\ fst (check_email (Some out)) = fst (check_email (Some s))
    /\ validate_email out = validate_email s.
Proof.
  intros s Hs out.
  assert (Hout : out = lower (strip s)).
  { subst out. unfold clean_email. now destruct s. }
  assert (Hstrip : out = strip (lower s)) by (now rewrite strip_lower).
  pose proof (isascii_strip s Hs) as Hss.
  assert (Hv : validate_email out = validate_email s).
  { apply eq_true_iff_eq. rewrite !validate_email_In, Hout.
    destruct (In_lower_mark _ Hss) as [-> ->].
    now rewrite !In_strip by reflexivity. }
  repeat apply conj.
  - rewrite Hout, (length_lower _ Hss). apply length_strip.
  - rewrite Hout. now apply lower_no_capital.
  - intros c t E. rewrite Hstrip in E.
    exact (proj1 (strip_ends (lower s) t c) E).
  - intros c t E. rewrite Hstrip in E.
    exact (proj2 (strip_ends (lower s) t c) E).
  - now rewrite !check_email_verdict.
  - exact Hv.
Qed.

(** The address of the test suite, padded and in capitals. *)
Lemma clean_email_normal_form_witness :
  clean_email (Some (lit "  JOHN@EMAIL.COM  ")) = lit "john@email.com"
  /\ validate_email (clean_email (Some (lit "  JOHN@EMAIL.COM  ")))
     = validate_email (lit "  JOHN@EMAIL.COM  ").
Proof.
  split; [reflexivity|].
  apply (clean_email_normal_form (lit "  JOHN@EMAIL.COM  ")). reflexivity.
Defined.

(** ** Sums of [int]s *)

Lemma sum_ints_from (zs : list Z) (a : Z) :
  fold_left (fun acc x => bind acc (fun a => add a x)) (map PyInt zs)
    (Ret (PyInt a))
  = Ret (PyInt (a + Zsum zs)).
Proof.
  revert a. induction zs as [|z zs IH]; intros a; simpl.
  - now rewrite Z.add_0_r.
  - rewrite IH. now rewrite Z.add_assoc.
Qed.

Lemma Zsum_app (l l' : list Z) : Zsum (l ++ l') = Zsum l + Zsum l'.
Proof. induction l as [|z l IH]; simpl; [reflexivity|]. rewrite IH. lia. Qed.

Lemma Zsum_permutation (l l' : list Z) :
  Permutation l l' -> Zsum l = Zsum l'.
Proof. induction 1; simpl; lia. Qed.

(** X12. [calculate_total_sales] of a list of [int]s is their exact sum,
    an [int], without exception; it does not depend on the order of the
    sales, the total of two lists put together is the sum of their
    totals, and the empty list and [None] give 0. *)
Theorem calculate_total_sales_ints :
  calculate_total_sales None = Ret (PyInt 0) /\
  (forall zs : list Z,
     calculate_total_sales (Some (map PyInt zs)) = Ret (PyInt (Zsum zs))) /\
  (forall zs zs' : list Z, Permutation zs zs' ->
     calculate_total_sales (Some (map PyInt zs))
     = calculate_total_sales (Some (map PyInt zs'))) /\
  (forall zs zs' : list Z,
     calculate_total_sales (Some (map PyInt (zs ++ zs')))
     = bind (calculate_total_sales (Some (map PyInt zs)))
         (fun a => bind (calculate_total_sales (Some (map PyInt zs')))
                     (fun b => add a b))).
Proof.
  assert (ints : forall zs,
    calculate_total_sales (Some (map PyInt zs)) = Ret (PyInt (Zsum zs))).
  { intros [|z zs]; [reflexivity|].
    change (calculate_total_sales (Some (map PyInt (z :: zs))))
      with (sum (map PyInt (z :: zs))).
    unfold sum. now rewrite (sum_ints_from (z :: zs) 0). }
  repeat apply conj.
  - reflexivity.
  - exact ints.
  - intros zs zs' Hp. now rewrite !ints, (Zsum_permutation _ _ Hp).
  - intros zs zs'. rewrite !ints. simpl. now rewrite Zsum_app.
Qed.

(** The sales of the test suite, in two orders. *)
Lemma calculate_total_sales_ints_witness :
  calculate_total_sales (Some (map PyInt [100; 200; 300]))
  = calculate_total_sales (Some (map PyInt [300; 100; 200])).
Proof.
  apply (proj1 (proj2 (proj2 calculate_total_sales_ints))).
  apply Permutation_sym, (Permutation_cons_app [100; 200] [] 300).
  now rewrite app_nil_r.
Defined.

(** ** Telephone numbers *)

(** X13. [clean_phone_number] works character by character: the number
    cleaned from two strings put together is the two cleaned numbers put
    together, a character that is not a digit can be put in or left out
    anywhere without changing the result, the result is never longer
    than the input, and the strings it leaves as they are are those made
    of digits only. *)
Theorem clean_phone_number_compose :
  (forall a b,
     clean_phone_number (a ++ b)
     = clean_phone_number a ++ clean_phone_number b) /\
  (forall a b c, isdigit c = false ->
     clean_phone_number (a ++ c :: b) = clean_phone_number (a ++ b)) /\
  (forall a, (length (clean_phone_number a) <= length a)%nat) /\
  (forall a, clean_phone_number a = a <-> forallb isdigit a = true).
Proof.
  unfold clean_phone_number, join_filter. repeat apply conj.
  - intros a b. apply List.filter_app.
  - intros a b c Hc. rewrite !List.filter_app. simpl. now rewrite Hc.
  - intros a. apply List.filter_length_le.
  - intros a. induction a as [|c a IH]; simpl; [tauto|].
    destruct (isdigit c) eqn:E; simpl.
    + rewrite <- IH. split; [now intros [= ->] | now intros ->].
    + split; [|discriminate]. intros H.
      pose proof (List.filter_length_le isdigit a) as Hl.
      rewrite H in Hl. simpl in Hl. lia.
Qed.

(** The two ways the test suite writes one number. *)
Lemma clean_phone_number_compose_witness :
  clean_phone_number (lit "123" ++ 0x2E%N :: lit "456")
  = clean_phone_number (lit "123" ++ lit "456").
Proof.
  apply (proj1 (proj2 clean_phone_number_compose)). reflexivity.
Defined.

(** ** Records that change *)

Lemma check_data_completeness_missing (d : gmap pystr pyval)
    (required_fields : list pystr) :
  snd (check_data_completeness d required_fields)
  = List.filter (field_missing d) required_fields.
Proof.
  unfold check_data_completeness. cbv zeta. simpl snd.
  now rewrite (fold_left_append_filter (field_missing d) required_fields []).
Qed.

Lemma check_data_completeness_verdict (d : gmap pystr pyval)
    (required_fields : list pystr) :
  fst (check_data_completeness d required_fields)
  = Nat.eqb (length (snd (check_data_completeness d required_fields))) 0.
Proof. reflexivity. Qed.

Lemma field_missing_insert (d : gmap pystr pyval) (f g : pystr) (v : pyval) :
  field_missing (<[f:=v]> d) g
  = if bool_decide (g = f) then negb (truthy v) else field_missing d g.
Proof.
  unfold field_missing. destruct (bool_decide_reflect (g = f)) as [->|Hne].
  - now rewrite lookup_insert_eq.
  - now rewrite lookup_insert_ne by congruence.
Qed.

(** X14. [check_data_completeness] against a record that changes: with
    no required field every record is complete, in the empty record
    every required field is missing, the fields missing from two lists
    put together are those of the one followed by those of the other;
    storing a truthy value under a field takes that field, and no other,
    out of the missing ones; storing a falsy value, or deleting the
    field, makes it missing if it is required. *)
Theorem check_data_completeness_updates :
  (forall d : gmap pystr pyval, check_data_completeness d [] = (true, [])) /\
  (forall required_fields,
     check_data_completeness ∅ required_fields
     = (Nat.eqb (length required_fields) 0, required_fields)) /\
  (forall (d : gmap pystr pyval) r1 r2,
     snd (check_data_completeness d (r1 ++ r2))
     = snd (check_data_completeness d r1) ++ snd (check_data_completeness d r2)) /\
  (forall (d : gmap pystr pyval) f v required_fields, truthy v = true ->
     snd (check_data_completeness (<[f:=v]> d) required_fields)
     = List.filter (fun g => negb (bool_decide (g = f)))
         (snd (check_data_completeness d required_fields))) /\
  (forall (d : gmap pystr pyval) f v required_fields,
     truthy v = false -> In f required_fields ->
     In f (snd (check_data_completeness (<[f:=v]> d) required_fields))) /\
  (forall (d : gmap pystr pyval) f required_fields,
     In f required_fields ->
     In f (snd (check_data_completeness (delete f d) required_fields))).
Proof.
  repeat apply conj.
  - reflexivity.
  - intros req.
    assert (H : snd (check_data_completeness ∅ req) = req).
    { rewrite check_data_completeness_missing.
      induction req as [|g req IH]; [reflexivity|]. simpl.
      unfold field_missing at 1. rewrite lookup_empty. now rewrite IH. }
    apply injective_projections; [|exact H].
    now rewrite check_data_completeness_verdict, H.
  - intros d r1 r2. rewrite !check_data_completeness_missing.
    apply List.filter_app.
  - intros d f v req Hv. rewrite !check_data_completeness_missing.
    induction req as [|g req IH]; [reflexivity|]. simpl.
    rewrite field_missing_insert, Hv. simpl negb.
    destruct (bool_decide_reflect (g = f)) as [->|Hne].
    + destruct (field_missing d f); simpl; [|exact IH].
      rewrite bool_decide_eq_true_2 by reflexivity. exact IH.
    + destruct (field_missing d g); simpl; [|exact IH].
      rewrite bool_decide_eq_false_2 by exact Hne. simpl. now rewrite IH.
  - intros d f v req Hv Hin. rewrite check_data_completeness_missing.
    apply filter_In. split; [exact Hin|].
    rewrite field_missing_insert, bool_decide_eq_true_2 by reflexivity.
    now rewrite Hv.
  - intros d f req Hin. rewrite check_data_completeness_missing.
    apply filter_In. split; [exact Hin|].
    unfold field_missing. now rewrite lookup_delete_eq.
Qed.

(** Filling in the email of the example record completes it. *)
Lemma check_data_completeness_updates_witness :
  snd (check_data_completeness
         (<[lit "email" := VStr (lit "john@test.com")]> example_record)
         [lit "name"; lit "email"; lit "age"])
  = [].
Proof.
  rewrite (proj1 (proj2 (proj2 (proj2 check_data_completeness_updates))));
    reflexivity.
Defined.

(** X15. [validate_data_types] finds nothing to report in the empty
    record, whatever types are asked for; the errors of two type
    mappings put together are those of the one followed by those of the
    other; a [bool] passes as an [int]. A record that is complete for
    the fields of a type mapping and valid for it holds, under each of
    these fields, a truthy value of the expected type. *)
Theorem validate_data_types_compose :
  (forall field_types, validate_data_types ∅ field_types = (true, [])) /\
  (forall (d : gmap pystr pyval) t1 t2,
     snd (validate_data_types d (t1 ++ t2))
     = snd (validate_data_types d t1) ++ snd (validate_data_types d t2)) /\
  (forall (d : gmap pystr pyval) field b,
     d !! field = Some (VBool b) ->
     validate_data_types d [(field, TInt)] = (true, [])) /\
  (forall (d : gmap pystr pyval) field_types,
     fst (check_data_completeness d (map fst field_types)) = true ->
     fst (validate_data_types d field_types) = true ->
     forall field expected_type, In (field, expected_type) field_types ->
       exists v, d !! field = Some v /\ truthy v = true
                 /\ isinstance v expected_type = true).
Proof.
  repeat apply conj.
  - intros types.
    assert (H : snd (validate_data_types ∅ types) = []).
    { rewrite validate_data_types_errors.
      induction types as [|[f t] types IH]; [reflexivity|]. simpl.
      unfold errors_of at 1. simpl. now rewrite lookup_empty. }
    apply injective_projections; [|exact H].
    change (fst (validate_data_types ∅ types))
      with (Nat.eqb (length (snd (validate_data_types ∅ types))) 0).
    now rewrite H.
  - intros d t1 t2. rewrite !validate_data_types_errors. apply flat_map_app.
  - intros d f b H. unfold validate_data_types. simpl. now rewrite H.
  - intros d types Hc Hv f t Hin.
    rewrite check_data_completeness_verdict in Hc.
    apply length_zero_nil in Hc.
    rewrite check_data_completeness_missing in Hc.
    assert (Hf : field_missing d f = false).
    { apply (proj1 (filter_nil_iff _ _) Hc). apply in_map_iff.
      now exists (f, t). }
    unfold field_missing in Hf. destruct (d !! f) as [v|] eqn:Ev; [|discriminate].
    exists v. split; [reflexivity|]. split; [now apply negb_false_iff|].
    change (fst (validate_data_types d types))
      with (Nat.eqb (length (snd (validate_data_types d types))) 0) in Hv.
    apply length_zero_nil in Hv. rewrite validate_data_types_errors in Hv.
    destruct (isinstance v t) eqn:Ei; [reflexivity|]. exfalso.
    assert (Hm : In (type_error f t v) (flat_map (errors_of d) types)).
    { apply in_flat_map. exists (f, t). split; [exact Hin|].
      unfold errors_of. simpl. rewrite Ev, Ei. now left. }
    rewrite Hv in Hm. destruct Hm.
Qed.

(** The record of the test suite passes both checks for its three
    fields, so its age is a truthy [int]. *)
Lemma validate_data_types_compose_witness :
  exists v,
    (<[lit "name" := VStr (lit "John")]>
       (<[lit "age" := VInt 30]> (∅ : gmap pystr pyval))) !! lit "age" = Some v
    /\ truthy v = true /\ isinstance v TInt = true.
Proof.
  apply (proj2 (proj2 (proj2 validate_data_types_compose))
           _ [(lit "name", TStr); (lit "age", TInt)]).
  - reflexivity.
  - reflexivity.
  - right. now left.
Defined.

(** ** Splitting at a character *)

Lemma split_from_char (c d : N) (cur s : pystr) :
  split_from [c] 0 cur (d :: s)
  = if (c =? d)%N then rev cur :: split_from [c] 0 [] s
    else split_from [c] 0 (d :: cur) s.
Proof. simpl. now rewrite andb_true_r. Qed.

Lemma split_char_notin (c : N) (cur s : pystr) :
  ~ In c s -> split_from [c] 0 cur s = [rev cur ++ s].
Proof.
  revert cur. induction s as [|d s IH]; intros cur Hc.
  - simpl. now rewrite app_nil_r.
  - rewrite split_from_char.
    destruct (N.eqb_spec c d) as [->|Hne]; [exfalso; apply Hc; now left|].
    rewrite IH by (intros H; apply Hc; now right).
    simpl. now rewrite <- app_assoc.
Qed.

Lemma split_char_first (c : N) (cur a b : pystr) :
  ~ In c a ->
  split_from [c] 0 cur (a ++ c :: b) = (rev cur ++ a) :: split_from [c] 0 [] b.
Proof.
  revert cur. induction a as [|d a IH]; intros cur Hc.
  - simpl app. rewrite split_from_char, N.eqb_refl. now rewrite app_nil_r.
  - simpl app. rewrite split_from_char.
    destruct (N.eqb_spec c d) as [->|Hne]; [exfalso; apply Hc; now left|].
    rewrite IH by (intros H; apply Hc; now right).
    simpl. now rewrite <- app_assoc.
Qed.

Lemma first_occurrence (c : N) (s : pystr) :
  In c s -> exists a b, s = a ++ c :: b /\ ~ In c a.
Proof.
  induction s as [|d s IH]; [intros []|].
  destruct (N.eq_dec d c) as [->|Hne].
  - intros _. exists [], s. split; [reflexivity | intros []].
  - intros [H|H]; [contradiction|].
    destruct (IH H) as (a & b & -> & Ha). exists (d :: a), b.
    split; [reflexivity|]. intros [E|E]; [now apply Hne | now apply Ha].
Qed.

Lemma first_occurrence_unique (c : N) (a a' b b' : pystr) :
  a ++ c :: b = a' ++ c :: b' -> ~ In c a -> ~ In c a' -> a = a' /\ b = b'.
Proof.
  revert a'. induction a as [|d a IH]; intros [|d' a'] E Ha Ha'.
  - now injection E as ->.
  - injection E as <- _. exfalso. apply Ha'. now left.
  - injection E as -> _. exfalso. apply Ha. now left.
  - injection E as -> E.
    destruct (IH a' E) as [-> ->].
    + intros H. apply Ha. now right.
    + intros H. apply Ha'. now right.
    + now split.
Qed.

Lemma split_char_nonnil (c : N) (s : pystr) : split_from [c] 0 [] s <> [].
Proof.
  destruct (in_dec N.eq_dec c s) as [H|H].
  - destruct (first_occurrence c s H) as (a & b & -> & Ha).
    now rewrite split_char_first.
  - now rewrite split_char_notin.
Qed.

(** A string splits in two at a character exactly when the character
    occurs once, between the two pieces. *)
Lemma split_char_two (c : N) (s l r : pystr) :
  split s [c] = [l; r] <-> s = l ++ c :: r /\ ~ In c l /\ ~ In c r.
Proof.
  unfold split. split.
  - destruct (in_dec N.eq_dec c s) as [H|H];
      [|now rewrite split_char_notin].
    destruct (first_occurrence c s H) as (a & b & -> & Ha).
    rewrite split_char_first by exact Ha. simpl. intros [= <- Hb].
    destruct (in_dec N.eq_dec c b) as [H'|H'].
    + destruct (first_occurrence c b H') as (a' & b' & -> & Ha').
      rewrite split_char_first in Hb by exact Ha'.
      injection Hb as _ Hb. now apply split_char_nonnil in Hb.
    + rewrite split_char_notin in Hb by exact H'.
      injection Hb as <-. now repeat split.
  - intros (-> & Hl & Hr).
    now rewrite split_char_first, split_char_notin.
Qed.

Lemma str_eqb_eq (s t : pystr) : str_eqb s t = true <-> s = t.
Proof.
  revert t. induction s as [|c s IH]; intros [|d t]; simpl;
    try (split; [discriminate | discriminate]); [tauto|].
  rewrite andb_true_iff, N.eqb_eq, IH. split.
  - now intros [-> ->].
  - now intros [= -> ->].
Qed.

Lemma in_list_In (x : pystr) (l : list pystr) :
  in_list x l = true <-> In x l.
Proof.
  unfold in_list. rewrite existsb_exists. split.
  - intros (y & Hy & E). apply str_eqb_eq in E. now subst.
  - intros H. exists x. split; [exact H | now apply str_eqb_eq].
Qed.

Lemma tld_marks (tld : pystr) :
  In tld [lit "com"; lit "org"; lit "net"] ->
  tld <> [] /\ ~ In 0x40%N tld /\ ~ In 0x2E%N tld.
Proof.
  intros [<-|[<-|[<-|[]]]]; repeat split; try discriminate;
    simpl; intros H; repeat (destruct H as [H|H]; [discriminate H|]);
    exact H.
Qed.

(** X16. The second [validate_email] of the notebook accepts exactly the
    addresses [local@host.tld] in which [local] is not empty, neither
    [local] nor [host] holds an at sign or a full stop, and [tld] is com,
    org or net; [host] may be empty. What it accepts, the first
    [validate_email] accepts. *)
Theorem notebook_validate_email_shape :
  (forall email,
     Notebook.validate_email email = true <->
     exists local host tld,
       email = local ++ 0x40%N :: host ++ 0x2E%N :: tld
       /\ local <> []
       /\ ~ In 0x40%N (local ++ host) /\ ~ In 0x2E%N (local ++ host)
       /\ In tld [lit "com"; lit "org"; lit "net"]) /\
  (forall email,
     Notebook.validate_email email = true -> validate_email email = true) /\
  Notebook.validate_email (lit "a@.com") = true.
Proof.
  assert (shape : forall email,
    Notebook.validate_email email = true <->
    exists local host tld,
      email = local ++ 0x40%N :: host ++ 0x2E%N :: tld
      /\ local <> []
      /\ ~ In 0x40%N (local ++ host) /\ ~ In 0x2E%N (local ++ host)
      /\ In tld [lit "com"; lit "org"; lit "net"]).
  { intros email. unfold Notebook.validate_email.
    change (lit "@") with [0x40%N]. change (lit ".") with [0x2E%N]. split.
    - destruct (split email [0x40%N]) as [|l [|r [|? ?]]] eqn:E1;
        try discriminate.
      destruct l as [|l0 l]; [discriminate|].
      destruct r as [|r0 r]; [discriminate|].
      destruct (split email [0x2E%N]) as [|l2 [|r2 [|? ?]]] eqn:E2;
        try discriminate.
      destruct l2 as [|l20 l2]; [discriminate|].
      destruct r2 as [|r20 r2]; [discriminate|].
      cbv beta iota zeta. cbn [andb]. intros H.
      assert (Htld : In (r20 :: r2) [lit "com"; lit "org"; lit "net"]).
      { apply in_list_In.
        now destruct (in_list (r20 :: r2) [lit "com"; lit "org"; lit "net"]). }
      clear H. destruct (tld_marks _ Htld) as (_ & Hat_tld & _).
      apply split_char_two in E1. destruct E1 as (E1 & Hl & Hr).
      apply split_char_two in E2. destruct E2 as (E2 & Hl2 & Hr2).
      assert (Hat2 : In 0x40%N (l20 :: l2)).
      { assert (Hin : In 0x40%N email)
          by (rewrite E1; apply in_or_app; right; now left).
        rewrite E2 in Hin. apply in_app_or in Hin.
        destruct Hin as [Hin|[Hin|Hin]];
          [exact Hin | discriminate Hin | contradiction]. }
      destruct (first_occurrence _ _ Hat2) as (a & h & Ea & Ha).
      rewrite Ea, <- app_assoc in E2. simpl in E2. rewrite E2 in E1.
      destruct (first_occurrence_unique _ _ _ _ _ E1 Ha Hl) as [-> Er].
      exists (l0 :: l), h, (r20 :: r2). repeat apply conj.
      + exact E2.
      + discriminate.
      + intros H. apply in_app_or in H. destruct H as [H|H]; [now apply Hl|].
        apply Hr. rewrite <- Er. apply in_or_app. now left.
      + intros H. apply Hl2. rewrite Ea. apply in_app_or in H.
        apply in_or_app. destruct H as [H|H]; [now left|]. right. now right.
      + exact Htld.
    - intros (local & host & tld & -> & Hne & Hat & Hdot & Htld).
      destruct (tld_marks _ Htld) as (Htne & Hat_tld & Hdot_tld).
      assert (E1 : split (local ++ 0x40%N :: host ++ 0x2E%N :: tld) [0x40%N]
                   = [local; host ++ 0x2E%N :: tld]).
      { apply split_char_two. repeat split.
        - intros H. apply Hat, in_or_app. now left.
        - intros H. apply in_app_or in H.
          destruct H as [H|[H|H]];
            [apply Hat, in_or_app; now right | discriminate H | contradiction]. }
      assert (E2 : split (local ++ 0x40%N :: host ++ 0x2E%N :: tld) [0x2E%N]
                   = [local ++ 0x40%N :: host; tld]).
      { apply split_char_two. repeat split.
        - now rewrite <- app_assoc.
        - intros H. apply in_app_or in H.
          destruct H as [H|[H|H]];
            [apply Hdot, in_or_app; now left | discriminate H
            | apply Hdot, in_or_app; now right].
        - exact Hdot_tld. }
      rewrite E1, E2. apply in_list_In in Htld.
      destruct local as [|c0 local]; [congruence|].
      destruct tld as [|t0 tld]; [congruence|].
      destruct host as [|h0 host]; simpl app; now rewrite Htld. }
  repeat apply conj.
  - exact shape.
  - intros email H. apply shape in H.
    destruct H as (local & host & tld & -> & _). apply validate_email_In.
    split; apply in_or_app; right; [now left|].
    right. apply in_or_app. right. now left.
  - reflexivity.
Qed.

(** The address of the notebook. *)
Lemma notebook_validate_email_shape_witness :
  validate_email (lit "abc@example.com") = true.
Proof.
  apply (proj1 (proj2 notebook_validate_email_shape)). reflexivity.
Defined.
